(** * RedisClient: the market-data store facade of the trading engine

    A shallow embedding of [src/cpp/src/communication/redis_client.h].

    The class talks to an external store through hiredis.  Every member
    function is embedded as a computation in a small state monad whose
    state holds the object's fields and the outside world (the store, the
    network's behaviour, the wall clock, the console).

    Conventions.
    - [string] stands for [std::string]: a byte sequence that may hold NUL
      bytes.  Passing [s.c_str()] to a ["%s"] slot of [redisCommand] sends
      the bytes up to the first NUL; [c_str] writes that out.
    - [reply->str] is a [char*]; a reply carries the C string found there,
      so building a [std::string] from it is the identity.
    - [redisReply] is a tagged union; it is embedded as an inductive type
      with one constructor per reply type. *)

From Stdlib Require Import ZArith List String Ascii Bool Lia.
From stdpp Require Import gmap strings list fin_maps pretty.

Local Open Scope string_scope.
Local Open Scope Z_scope.
Local Open Scope list_scope.

(** ** Strings *)

(** [s.c_str()] read by a ["%s"] conversion: the bytes before the first NUL. *)
Fixpoint c_str (s : string) : string :=
  match s with
  | EmptyString => EmptyString
  | String c s' => if Ascii.eqb c Ascii.zero then EmptyString else String c (c_str s')
  end.

(** A string without NUL bytes. *)
Fixpoint no_nul (s : string) : bool :=
  match s with
  | EmptyString => true
  | String c s' => negb (Ascii.eqb c Ascii.zero) && no_nul s'
  end.

(** [key.find_last_of(ch)]: the index of the last occurrence, [None] for
    [std::string::npos]. *)
Fixpoint find_last_of (ch : ascii) (s : string) : option nat :=
  match s with
  | EmptyString => None
  | String c s' =>
      match find_last_of ch s' with
      | Some i => Some (S i)
      | None => if Ascii.eqb c ch then Some O else None
      end
  end.

(** [key.substr(pos)], for [pos <= key.size()]. *)
Fixpoint substr (pos : nat) (s : string) : string :=
  match pos, s with
  | O, _ => s
  | S p, String _ s' => substr p s'
  | S _, EmptyString => EmptyString
  end.

(** ** hiredis replies *)

Inductive reply_type :=
| REDIS_REPLY_STRING
| REDIS_REPLY_ARRAY
| REDIS_REPLY_INTEGER
| REDIS_REPLY_NIL
| REDIS_REPLY_STATUS
| REDIS_REPLY_ERROR.

#[global] Instance reply_type_eq_dec : EqDecision reply_type.
Proof. solve_decision. Defined.

#[warnings="-register-all"]
Inductive redisReply :=
| ReplyString (s : string)
| ReplyArray (elements : list redisReply)
| ReplyInteger (i : Z)
| ReplyNil
| ReplyStatus (s : string)
| ReplyError (s : string).

(** [reply->type] *)
Definition rtype (r : redisReply) : reply_type :=
  match r with
  | ReplyString _ => REDIS_REPLY_STRING
  | ReplyArray _ => REDIS_REPLY_ARRAY
  | ReplyInteger _ => REDIS_REPLY_INTEGER
  | ReplyNil => REDIS_REPLY_NIL
  | ReplyStatus _ => REDIS_REPLY_STATUS
  | ReplyError _ => REDIS_REPLY_ERROR
  end.

(** [reply->str]; [None] is the null pointer of the replies without text. *)
Definition str (r : redisReply) : option string :=
  match r with
  | ReplyString s | ReplyStatus s | ReplyError s => Some s
  | ReplyArray _ | ReplyInteger _ | ReplyNil => None
  end.

(** ** The commands the client sends *)

Inductive command :=
| SET (key value : string)
| LPUSH (key value : string)
| LTRIM (key : string) (start stop : Z)
| GET (key : string)
| PUBLISH (channel message : string)
| KEYS (pattern : string).

(** ** The store *)

Inductive value :=
| VString (s : string)
| VList (l : list string).

Record Server := mkServer {
  db : gmap string value;
  subscribers : string -> N
}.

Definition WRONGTYPE : string :=
  "WRONGTYPE Operation against a key holding the wrong kind of value".

(** Modelled from the spec: the range kept by [LTRIM key start stop] of the
    store (the server is not part of the repository).  Negative indices
    count from the tail; an empty or inverted range keeps nothing. *)
Definition ltrim (l : list string) (start stop : Z) : list string :=
  let llen := Z.of_nat (length l) in
  let start := if start <? 0 then llen + start else start in
  let stop := if stop <? 0 then llen + stop else stop in
  let start := if start <? 0 then 0 else start in
  if (stop <? start) || (llen <=? start) then []
  else
    let stop := if llen <=? stop then llen - 1 else stop in
    take (Z.to_nat (stop - start + 1)) (drop (Z.to_nat start) l).

(** Modelled from the spec: the key pattern of [KEYS], with [*] (any run of
    bytes) and [?] (any one byte); the client's only pattern,
    [stock:current:*], uses nothing else. *)
Fixpoint glob_match (p s : string) : bool :=
  match p with
  | EmptyString => match s with EmptyString => true | _ => false end
  | String c p' =>
      if Ascii.eqb c "*" then
        (fix star (t : string) : bool :=
           glob_match p' t ||
           match t with
           | EmptyString => false
           | String _ t' => star t'
           end) s
      else
        match s with
        | EmptyString => false
        | String d s' => (Ascii.eqb c "?" || Ascii.eqb c d) && glob_match p' s'
        end
  end.

(** Modelled from the spec: the store of section 6 ("wire-compatible with a
    standard key-value/list/pub-sub store"), which the repository only
    reaches through [redisCommand]: what the server does with one command
    and what it answers. *)
Definition exec (srv : Server) (c : command) : redisReply * Server :=
  match c with
  | SET k v =>
      (ReplyStatus "OK", mkServer (<[k := VString v]> (db srv)) (subscribers srv))
  | LPUSH k v =>
      match db srv !! k with
      | None =>
          (ReplyInteger 1, mkServer (<[k := VList [v]]> (db srv)) (subscribers srv))
      | Some (VList l) =>
          (ReplyInteger (Z.of_nat (S (length l))),
           mkServer (<[k := VList (v :: l)]> (db srv)) (subscribers srv))
      | Some (VString _) => (ReplyError WRONGTYPE, srv)
      end
  | LTRIM k start stop =>
      match db srv !! k with
      | None => (ReplyStatus "OK", srv)
      | Some (VList l) =>
          (ReplyStatus "OK",
           match ltrim l start stop with
           | [] => mkServer (delete k (db srv)) (subscribers srv)
           | l' => mkServer (<[k := VList l']> (db srv)) (subscribers srv)
           end)
      | Some (VString _) => (ReplyError WRONGTYPE, srv)
      end
  | GET k =>
      match db srv !! k with
      | None => (ReplyNil, srv)
      | Some (VString s) => (ReplyString (c_str s), srv)
      | Some (VList _) => (ReplyError WRONGTYPE, srv)
      end
  | PUBLISH ch _ => (ReplyInteger (Z.of_N (subscribers srv ch)), srv)
  | KEYS p =>
      (ReplyArray
         (map (fun k => ReplyString (c_str k))
              (filter (fun k => Is_true (glob_match p k)) (map fst (map_to_list (db srv))))),
       srv)
  end.

(** The list stored under a key, [[]] when the key is absent (the store
    keeps no empty lists) or holds a scalar. *)
Definition list_at (srv : Server) (k : string) : list string :=
  match db srv !! k with
  | Some (VList l) => l
  | _ => []
  end.

(** The key is free or holds a list: [LPUSH] and [LTRIM] apply to it. *)
Definition list_or_free (srv : Server) (k : string) : Prop :=
  forall s, db srv !! k <> Some (VString s).

(** ** The world outside the object *)

(** What happens to one request on its way to the store and back. *)
Inductive fault :=
| Deliver                 (* executed, the reply arrives *)
| Drop                    (* never reaches the store: null reply *)
| Lost                    (* executed, the reply is lost: null reply *)
| Refuse (r : redisReply) (* answered with [r] without being executed *).

Record event := mkEvent {
  fate : fault;
  took : N   (* seconds that pass during the round trip *)
}.

(** The outcome of [redisConnect]. *)
Inductive dial :=
| NoMemory                         (* returns nullptr *)
| Unreachable (errstr : string)    (* a context with [err] set *)
| Established.

Record redisContext := mkContext {
  err : Z;
  errstr : string
}.

Inductive stream := Cout | Cerr.

Record World := mkWorld {
  server : Server;
  schedule : list event;     (* fate of the coming requests, [Deliver] once exhausted *)
  network : list dial;       (* outcome of the coming connection attempts *)
  sent : list command;       (* every command handed to [redisCommand], oldest first *)
  clock : Z;                 (* [std::time(nullptr)] *)
  console : list (stream * string)
}.

Definition next_event (w : World) : event :=
  match schedule w with
  | [] => mkEvent Deliver 0
  | e :: _ => e
  end.

(** Modelled from the spec: hiredis's [redisCommand] seen from the caller,
    the reply ([None] for the null pointer) and the store afterwards. *)
Definition round_trip (w : World) (c : command) : option redisReply * Server :=
  match fate (next_event w) with
  | Deliver => let (r, srv) := exec (server w) c in (Some r, srv)
  | Drop => (None, server w)
  | Lost => (None, snd (exec (server w) c))
  | Refuse r => (Some r, server w)
  end.

(** The reply the world holds for the next request, should it be [c]. *)
Definition answer (w : World) (c : command) : option redisReply :=
  fst (round_trip w c).

Definition after_request (w : World) (c : command) : World :=
  mkWorld (snd (round_trip w c)) (tail (schedule w)) (network w)
          (sent w ++ [c]) (clock w + Z.of_N (took (next_event w))) (console w).

(** ** The object and the monad of its member functions *)

Record RedisClient := mkClient {
  context : option redisContext;   (* [None] is nullptr *)
  host : string;
  port : Z;
  connected : bool
}.

Record State := mkState {
  self : RedisClient;
  world : World
}.

Definition M (A : Type) : Type := State -> A * State.

Definition ret {A : Type} (a : A) : M A := fun s => (a, s).

Definition bind {A B : Type} (m : M A) (k : A -> M B) : M B :=
  fun s => let (a, s') := m s in k a s'.

Notation "x <- m ;; k" := (bind m (fun x => k))
  (at level 100, m at next level, right associativity).
Notation "m ;;; k" := (bind m (fun _ => k))
  (at level 100, right associativity).

(** Reads and writes of the fields. *)
Definition get_connected : M bool := fun s => (connected (self s), s).
Definition get_host : M string := fun s => (host (self s), s).
Definition get_port : M Z := fun s => (port (self s), s).

Definition set_context (c : option redisContext) : M unit :=
  fun s => (tt, mkState (mkClient c (host (self s)) (port (self s)) (connected (self s)))
                        (world s)).

Definition set_connected (b : bool) : M unit :=
  fun s => (tt, mkState (mkClient (context (self s)) (host (self s)) (port (self s)) b)
                        (world s)).

(** Calls into the world.  The model has one store and one connection to
    it, so the [context] argument of [redisCommand] is left out.
    [freeReplyObject] and [redisFree] release memory only and leave no trace
    in the model. *)
Definition redisCommand (c : command) : M (option redisReply) :=
  fun s => (answer (world s) c, mkState (self s) (after_request (world s) c)).

Definition time : M Z := fun s => (clock (world s), s).

Definition say (out : stream) (line : string) (w : World) : World :=
  mkWorld (server w) (schedule w) (network w) (sent w) (clock w)
          (console w ++ [(out, line)]).

(** [std::cout << ... << std::endl] and [std::cerr << ... << std::endl] *)
Definition print (out : stream) (line : string) : M unit :=
  fun s => (tt, mkState (self s) (say out line (world s))).

Definition redisConnect (h : string) (p : Z) : M (option redisContext) :=
  fun s =>
    let w := world s in
    let ctx :=
      match network w with
      | NoMemory :: _ => None
      | Unreachable e :: _ => Some (mkContext 1 e)
      | Established :: _ | [] => Some (mkContext 0 "")
      end in
    (ctx, mkState (self s)
            (mkWorld (server w) (schedule w) (tail (network w)) (sent w) (clock w)
                     (console w))).

(** A call that may run into undefined behaviour. *)
Inductive outcome (A : Type) :=
| Returns (a : A)
| Undefined.
Arguments Returns {A} a.
Arguments Undefined {A}.

(** ** Member functions that do not depend on the JSON library *)

(** redis_client.h:29 *)
Definition connect : M bool :=
  h <- get_host ;;
  p <- get_port ;;
  ctx <- redisConnect h p ;;
  set_context ctx ;;;
  match ctx with
  | None =>
      print Cerr "Can't allocate redis context" ;;;
      set_connected false ;;;
      ret false
  | Some c =>
      if negb (err c =? 0) then
        print Cerr ("Redis connection error: " +:+ errstr c) ;;;
        set_context None ;;;
        set_connected false ;;;
        ret false
      else
        set_connected true ;;;
        print Cout ("✅ Connected to Redis at " +:+ h +:+ ":" +:+ pretty p) ;;;
        ret true
  end.

(** redis_client.h:18, the constructor: [connected(false)], then [connect()].
    The [context] field is not initialised before [connect] assigns it. *)
Definition RedisClient_new (redis_host : string) (redis_port : Z) (w : World) : State :=
  snd (connect (mkState (mkClient None redis_host redis_port false) w)).

(** redis_client.h:48 *)
Definition isConnected : M bool := get_connected.

(** redis_client.h:129 *)
Definition getStockData (symbol : string) : M string :=
  c <- get_connected ;;
  if negb c then ret ""
  else
    let key := "stock:current:" +:+ symbol in
    reply <- redisCommand (GET (c_str key)) ;;
    match reply with
    | None => ret ""
    | Some r =>
        if negb (bool_decide (rtype r = REDIS_REPLY_STRING)) then ret ""
        else
          match str r with
          | Some result => ret result
          | None => ret ""   (* no string reply is without text *)
          end
    end.

(** redis_client.h:167, the loop over [reply->element]. *)
Fixpoint collect_symbols (elements : list redisReply) (symbols : list string)
  : outcome (list string) :=
  match elements with
  | [] => Returns symbols
  | e :: rest =>
      match str e with
      | None => Undefined   (* [std::string] built from a null pointer *)
      | Some key =>
          match find_last_of ":" key with
          | Some pos => collect_symbols rest (symbols ++ [substr (S pos) key])
          | None => collect_symbols rest symbols
          end
      end
  end.

(** redis_client.h:160 *)
Definition getAvailableSymbols : M (outcome (list string)) :=
  c <- get_connected ;;
  if negb c then ret (Returns [])
  else
    reply <- redisCommand (KEYS "stock:current:*") ;;
    match reply with
    | Some (ReplyArray elements) => ret (collect_symbols elements [])
    | _ => ret (Returns [])
    end.

(** ** Success tests and keys *)

(** redis_client.h:68, the success test of the quote write. *)
Definition quote_acknowledged (reply : redisReply) : bool :=
  bool_decide (rtype reply = REDIS_REPLY_STATUS) && bool_decide (str reply = Some "OK").

(** redis_client.h:111, the success test of the signal write. *)
Definition signal_acknowledged (reply : redisReply) : bool :=
  bool_decide (rtype reply = REDIS_REPLY_STATUS).

(** redis_client.h:154, the success test of the publication. *)
Definition publish_acknowledged (reply : redisReply) : bool :=
  bool_decide (rtype reply = REDIS_REPLY_INTEGER).

(** The keys of a symbol, as they reach the store. *)
Definition quote_key (symbol : string) : string := c_str ("stock:current:" +:+ symbol).
Definition history_key (symbol : string) : string := c_str ("stock:history:" +:+ symbol).
Definition signal_key (symbol : string) : string := c_str ("signal:latest:" +:+ symbol).
Definition signals_stream : string := "signals:stream".

(** ** Member functions that serialise JSON

    [nlohmann::json] is a third-party library: the number type of its
    floating-point values and its serialiser [dump] are parameters. *)

Section Engine.

Variable double : Type.

(** The value kinds of [nlohmann::json]. *)
#[warnings="-register-all"]
Inductive json :=
| JNull
| JBoolean (b : bool)
| JInteger (i : Z)
| JFloat (d : double)
| JString (s : string)
| JArray (items : list json)
| JObject (members : list (string * json)).

(** [json::dump()] *)
Variable dump : json -> string.

(** redis_client.h:52 *)
Definition storeStockData (symbol : string) (data : json) : M bool :=
  c <- get_connected ;;
  if negb c then
    print Cerr "❌ Redis not connected" ;;;
    ret false
  else
    let key := "stock:current:" +:+ symbol in
    let json_str := dump data in
    reply <- redisCommand (SET (c_str key) (c_str json_str)) ;;
    match reply with
    | None =>
        print Cerr "❌ Redis SET command failed" ;;;
        ret false
    | Some r =>
        let success := quote_acknowledged r in
        if success then
          let hist_key := "stock:history:" +:+ symbol in
          hist_reply <- redisCommand (LPUSH (c_str hist_key) (c_str json_str)) ;;
          trim_reply <- redisCommand (LTRIM (c_str hist_key) 0 999) ;;
          print Cout ("💾 Stored " +:+ symbol +:+ " data in Redis") ;;;
          ret success
        else ret success
    end.

(** redis_client.h:95, the document of a signal. *)
Definition signal_data (symbol signal reason : string) (confidence : double)
    (timestamp : Z) : json :=
  JObject [ ("symbol", JString symbol);
            ("signal", JString signal);
            ("reason", JString reason);
            ("confidence", JFloat confidence);
            ("timestamp", JInteger timestamp);
            ("source", JString "cpp_engine") ].

(** redis_client.h:91 *)
Definition storeTradingSignal (symbol signal reason : string) (confidence : double)
  : M bool :=
  c <- get_connected ;;
  if negb c then ret false
  else
    now <- time ;;
    let key := "signal:latest:" +:+ symbol in
    let json_str := dump (signal_data symbol signal reason confidence now) in
    reply <- redisCommand (SET (c_str key) (c_str json_str)) ;;
    match reply with
    | None => ret false
    | Some r =>
        let success := signal_acknowledged r in
        if success then
          let stream_key := signals_stream in
          stream_reply <- redisCommand (LPUSH (c_str stream_key) (c_str json_str)) ;;
          print Cout ("📡 Stored trading signal: " +:+ symbol +:+ " -> " +:+ signal) ;;;
          ret success
        else ret success
    end.

(** redis_client.h:145 *)
Definition publishMarketUpdate (channel : string) (data : json) : M bool :=
  c <- get_connected ;;
  if negb c then ret false
  else
    let json_str := dump data in
    reply <- redisCommand (PUBLISH (c_str channel) (c_str json_str)) ;;
    match reply with
    | None => ret false
    | Some r => ret (publish_acknowledged r)
    end.

(** The blob of a document, as it reaches the store. *)
Definition blob (data : json) : string := c_str (dump data).

(** The three requests of a quote write, as they reach the store. *)
Definition quote_set (symbol : string) (data : json) : command :=
  SET (quote_key symbol) (blob data).
Definition history_push (symbol : string) (data : json) : command :=
  LPUSH (history_key symbol) (blob data).
Definition history_trim (symbol : string) : command :=
  LTRIM (history_key symbol) 0 999.

(** The two requests of a signal write and the document they carry. *)
Definition signal_blob (symbol signal reason : string) (confidence : double)
    (timestamp : Z) : string :=
  blob (signal_data symbol signal reason confidence timestamp).
Definition signal_set (symbol signal reason : string) (confidence : double)
    (timestamp : Z) : command :=
  SET (signal_key symbol) (signal_blob symbol signal reason confidence timestamp).
Definition stream_push (symbol signal reason : string) (confidence : double)
    (timestamp : Z) : command :=
  LPUSH signals_stream (signal_blob symbol signal reason confidence timestamp).

(** The request of a publication. *)
Definition publish_request (channel : string) (data : json) : command :=
  PUBLISH (c_str channel) (blob data).

End Engine.

Arguments JNull {double}.
Arguments JBoolean {double} b.
Arguments JInteger {double} i.
Arguments JFloat {double} d.
Arguments JString {double} s.
Arguments JArray {double} items.
Arguments JObject {double} members.
Arguments storeStockData {double} dump symbol data.
Arguments storeTradingSignal {double} dump symbol signal reason confidence.
Arguments publishMarketUpdate {double} dump channel data.
Arguments signal_data {double} symbol signal reason confidence timestamp.
Arguments blob {double} dump data.
Arguments quote_set {double} dump symbol data.
Arguments history_push {double} dump symbol data.
Arguments signal_blob {double} dump symbol signal reason confidence timestamp.
Arguments signal_set {double} dump symbol signal reason confidence timestamp.
Arguments stream_push {double} dump symbol signal reason confidence timestamp.
Arguments publish_request {double} dump channel data.

(** ** Runs of quote writes *)

(** A sequence of quote writes, one [storeStockData] call after the other;
    the results come back in call order. *)
Fixpoint store_all {double : Type} (dump : json double -> string)
    (writes : list (string * json double)) : M (list bool) :=
  match writes with
  | [] => ret []
  | (symbol, data) :: rest =>
      b <- storeStockData dump symbol data ;;
      bs <- store_all dump rest ;;
      ret (b :: bs)
  end.

(** The fate of the [i]-th coming request. *)
Definition fate_at (w : World) (i : nat) : fault :=
  fate (nth i (schedule w) (mkEvent Deliver 0)).

(** The store executes the request (the reply may still be lost). *)
Definition executed (f : fault) : bool :=
  match f with
  | Deliver | Lost => true
  | Drop | Refuse _ => false
  end.

(** Throughout the run, whenever a quote write reports success the store
    has executed its [LPUSH] and its [LTRIM]. *)
Fixpoint follow_ons_executed {double : Type} (dump : json double -> string)
    (writes : list (string * json double)) (s : State) : bool :=
  match writes with
  | [] => true
  | (symbol, data) :: rest =>
      let r := storeStockData dump symbol data s in
      implb (fst r) (executed (fate_at (world s) 1) && executed (fate_at (world s) 2))
      && follow_ons_executed dump rest (snd r)
  end.

(** The blobs of the writes of the run that reported success and went to
    the history key [hk], oldest first. *)
Fixpoint written_to {double : Type} (dump : json double -> string) (hk : string)
    (writes : list (string * json double)) (s : State) : list string :=
  match writes with
  | [] => []
  | (symbol, data) :: rest =>
      let r := storeStockData dump symbol data s in
      (if fst r && bool_decide (history_key symbol = hk) then [blob dump data] else [])
      ++ written_to dump hk rest (snd r)
  end.

(** The cap of a history, [LTRIM key 0 999]. *)
Definition HISTORY_CAP : nat := 1000.

(** The history after one more applied write: the blob in front, the cap
    enforced. *)
Definition pushed (b : string) (h : list string) : list string :=
  take HISTORY_CAP (b :: h).

(** ** A sample serialiser, to run the model on concrete documents *)

Definition dquote : string := String (ascii_of_nat 34) EmptyString.

(** Compact JSON text for documents whose strings need no escaping;
    floating-point values are taken to be whole numbers. *)
Fixpoint sample_dump (j : json Z) : string :=
  match j with
  | JNull => "null"
  | JBoolean b => if b then "true" else "false"
  | JInteger i => pretty i
  | JFloat d => pretty d
  | JString s => dquote +:+ s +:+ dquote
  | JArray items =>
      "[" +:+
      (fix go (l : list (json Z)) : string :=
         match l with
         | [] => ""
         | x :: [] => sample_dump x
         | x :: r => sample_dump x +:+ "," +:+ go r
         end) items
      +:+ "]"
  | JObject members =>
      "{" +:+
      (fix go (l : list (string * json Z)) : string :=
         match l with
         | [] => ""
         | (k, x) :: [] => dquote +:+ k +:+ dquote +:+ ":" +:+ sample_dump x
         | (k, x) :: r => dquote +:+ k +:+ dquote +:+ ":" +:+ sample_dump x +:+ "," +:+ go r
         end) members
      +:+ "}"
  end.

Definition empty_server : Server := mkServer ∅ (fun _ => 0%N).

Definition quiet_world (events : list event) : World :=
  mkWorld empty_server events [] [] 1700000000 [].

(** A connected client in a world with the given coming events. *)
Definition online (events : list event) : State :=
  RedisClient_new "localhost" 6379 (quiet_world events).

(** A client whose connection attempt failed. *)
Definition offline : State :=
  RedisClient_new "localhost" 6379
    (mkWorld empty_server [] [Unreachable "Connection refused"] [] 1700000000 []).

Definition sample_quote : json Z :=
  JObject [("price", JInteger 189); ("volume", JInteger 52000)].

(** A reader for one document: it accepts that document's text only. *)
Definition sample_parse (expected : json Z) (text : string) : option (json Z) :=
  if String.eqb text (sample_dump expected) then Some expected else None.

(** ** The life of an object *)

(** redis_client.h:23, the destructor: whether it hands the handle to
    [redisFree]. *)
Definition destructor_frees (c : RedisClient) : bool :=
  bool_decide (context c <> None) && connected c.

(** A call of a public member function, with its arguments. *)
Inductive call (double : Type) :=
| CallConnect
| CallIsConnected
| CallStoreStockData (symbol : string) (data : json double)
| CallStoreTradingSignal (symbol signal reason : string) (confidence : double)
| CallGetStockData (symbol : string)
| CallPublishMarketUpdate (channel : string) (data : json double)
| CallGetAvailableSymbols.
Arguments CallConnect {double}.
Arguments CallIsConnected {double}.
Arguments CallStoreStockData {double} symbol data.
Arguments CallStoreTradingSignal {double} symbol signal reason confidence.
Arguments CallGetStockData {double} symbol.
Arguments CallPublishMarketUpdate {double} channel data.
Arguments CallGetAvailableSymbols {double}.

(** The call is made and its result dropped. *)
Definition perform {double : Type} (dump : json double -> string) (c : call double)
  : M unit :=
  match c with
  | CallConnect => connect ;;; ret tt
  | CallIsConnected => isConnected ;;; ret tt
  | CallStoreStockData symbol data => storeStockData dump symbol data ;;; ret tt
  | CallStoreTradingSignal symbol signal reason confidence =>
      storeTradingSignal dump symbol signal reason confidence ;;; ret tt
  | CallGetStockData symbol => getStockData symbol ;;; ret tt
  | CallPublishMarketUpdate channel data => publishMarketUpdate dump channel data ;;; ret tt
  | CallGetAvailableSymbols => getAvailableSymbols ;;; ret tt
  end.

(** The calls are made one after the other on the same object. *)
Fixpoint perform_all {double : Type} (dump : json double -> string)
    (calls : list (call double)) : M unit :=
  match calls with
  | [] => ret tt
  | c :: rest => perform dump c ;;; perform_all dump rest
  end.

(** The call is not [connect]. *)
Definition is_operation {double : Type} (c : call double) : bool :=
  match c with
  | CallConnect => false
  | _ => true
  end.

(** The number of signal writes among the calls. *)
Fixpoint signal_writes {double : Type} (calls : list (call double)) : nat :=
  match calls with
  | [] => 0
  | CallStoreTradingSignal _ _ _ _ :: rest => S (signal_writes rest)
  | _ :: rest => signal_writes rest
  end.

(** Every coming request is executed and answered. *)
Definition calm (w : World) : Prop :=
  Forall (fun e => fate e = Deliver) (schedule w).

(** The handle is there exactly when the object says it is connected. *)
Definition handle_matches_flag (c : RedisClient) : Prop :=
  connected c = true <-> context c <> None.

(** The name [getAvailableSymbols] lists for a key (redis_client.h:170-173):
    the text after the last colon; nothing for a key without colon. *)
Definition listed_name (key : string) : option string :=
  match find_last_of ":" key with
  | Some pos => Some (substr (S pos) key)
  | None => None
  end.

(** The name under which a stored symbol comes back from
    [getAvailableSymbols]: what follows the last colon of the symbol as it
    reached the store, the whole of it when it has no colon. *)
Definition listed_as (symbol : string) : string :=
  match listed_name (c_str symbol) with
  | Some name => name
  | None => c_str symbol
  end.

(** The string holds the byte. *)
Fixpoint has_byte (ch : ascii) (s : string) : bool :=
  match s with
  | EmptyString => false
  | String c s' => Ascii.eqb c ch || has_byte ch s'
  end.

(** A computation that leaves the object's fields as they are. *)
Definition keeps_self {A : Type} (m : M A) : Prop :=
  forall s, self (snd (m s)) = self s.

(** Between two states no command was handed to [redisCommand]: the log of
    requests, the store and the coming events are the same. *)
Definition no_request (s s' : State) : Prop :=
  sent (world s') = sent (world s) /\
  server (world s') = server (world s) /\
  schedule (world s') = schedule (world s).

(** * Properties *)

(** ** The monad *)

Lemma bind_run {A B : Type} (m : M A) (k : A -> M B) (s : State) :
  bind m k s = k (fst (m s)) (snd (m s)).
Proof. unfold bind. destruct (m s); reflexivity. Qed.

Lemma keeps_self_ret {A : Type} (a : A) : keeps_self (ret a).
Proof. intros s; reflexivity. Qed.

Lemma keeps_self_bind {A B : Type} (m : M A) (k : A -> M B) :
  keeps_self m -> (forall a, keeps_self (k a)) -> keeps_self (bind m k).
Proof.
  intros Hm Hk s. rewrite bind_run, Hk. apply Hm.
Qed.

Lemma keeps_self_get_connected : keeps_self get_connected.
Proof. intros s; reflexivity. Qed.

Lemma keeps_self_redisCommand (c : command) : keeps_self (redisCommand c).
Proof. intros s; reflexivity. Qed.

Lemma keeps_self_time : keeps_self time.
Proof. intros s; reflexivity. Qed.

Lemma keeps_self_print (out : stream) (line : string) : keeps_self (print out line).
Proof. intros s; reflexivity. Qed.

Create HintDb frame.
#[local] Hint Resolve keeps_self_ret keeps_self_get_connected keeps_self_redisCommand
  keeps_self_time keeps_self_print : frame.

(** Walks through a member function: binds, branches, then the calls. *)
Ltac frame :=
  repeat first
    [ apply keeps_self_bind; [ | intros ? ]
    | match goal with
      | |- keeps_self (if ?b then _ else _) => destruct b
      | |- keeps_self (match ?x with _ => _ end) => destruct x
      | |- keeps_self (let _ := _ in _) => cbv zeta
      end
    | solve [ auto with frame ] ].

Lemma keeps_self_storeStockData {double : Type} (dump : json double -> string)
    (symbol : string) (data : json double) :
  keeps_self (storeStockData dump symbol data).
Proof. unfold storeStockData. frame. Qed.

Lemma keeps_self_storeTradingSignal {double : Type} (dump : json double -> string)
    (symbol signal reason : string) (confidence : double) :
  keeps_self (storeTradingSignal dump symbol signal reason confidence).
Proof. unfold storeTradingSignal. frame. Qed.

Lemma keeps_self_getStockData (symbol : string) : keeps_self (getStockData symbol).
Proof. unfold getStockData. frame. Qed.

Lemma keeps_self_publishMarketUpdate {double : Type} (dump : json double -> string)
    (channel : string) (data : json double) :
  keeps_self (publishMarketUpdate dump channel data).
Proof. unfold publishMarketUpdate. frame. Qed.

Lemma keeps_self_getAvailableSymbols : keeps_self getAvailableSymbols.
Proof. unfold getAvailableSymbols. frame. Qed.

(** C10. Every operation other than [connect] leaves the object's fields,
    among them the [connected] flag and the [context] handle, exactly as
    they were, whatever the store answers and whether the call succeeds or
    fails. *)
Theorem operations_keep_connection_state {double : Type} (dump : json double -> string)
    (symbol signal reason channel : string) (data : json double) (confidence : double)
    (s : State) :
  self (snd (storeStockData dump symbol data s)) = self s /\
  self (snd (storeTradingSignal dump symbol signal reason confidence s)) = self s /\
  self (snd (getStockData symbol s)) = self s /\
  self (snd (publishMarketUpdate dump channel data s)) = self s /\
  self (snd (getAvailableSymbols s)) = self s /\
  self (snd (isConnected s)) = self s.
Proof.
  repeat apply conj.
  - apply keeps_self_storeStockData.
  - apply keeps_self_storeTradingSignal.
  - apply keeps_self_getStockData.
  - apply keeps_self_publishMarketUpdate.
  - apply keeps_self_getAvailableSymbols.
  - reflexivity.
Qed.

(** [connect] is the operation that does change the fields: a refused
    connection leaves a client that was connected disconnected. *)
Example connect_changes_connection_state :
  let s := online [] in
  let w := mkWorld empty_server [] [NoMemory] [] 0 [] in
  connected (self s) = true /\
  connected (self (snd (connect (mkState (self s) w)))) = false /\
  context (self (snd (connect (mkState (self s) w)))) = None.
Proof. repeat apply conj; reflexivity. Qed.

(** ** What one call does *)

Lemma quote_acknowledged_spec (r : redisReply) :
  quote_acknowledged r = true <-> rtype r = REDIS_REPLY_STATUS /\ str r = Some "OK".
Proof.
  unfold quote_acknowledged. rewrite andb_true_iff, !bool_decide_eq_true. reflexivity.
Qed.

Lemma quote_acknowledged_OK (r : redisReply) :
  quote_acknowledged r = true <-> r = ReplyStatus "OK".
Proof.
  rewrite quote_acknowledged_spec. split.
  - intros [Ht Hs]. destruct r; simpl in *; congruence.
  - intros ->. split; reflexivity.
Qed.

Lemma signal_acknowledged_spec (r : redisReply) :
  signal_acknowledged r = true <-> rtype r = REDIS_REPLY_STATUS.
Proof. unfold signal_acknowledged. apply bool_decide_eq_true. Qed.

Lemma publish_acknowledged_spec (r : redisReply) :
  publish_acknowledged r = true <-> rtype r = REDIS_REPLY_INTEGER.
Proof. unfold publish_acknowledged. apply bool_decide_eq_true. Qed.

(** Unfolds a member function down to the calls into the world, under a
    known value of the [connected] flag. *)
Ltac run_call f Hc :=
  cbv beta iota zeta delta [f bind ret get_connected time redisCommand print];
  rewrite Hc;
  cbv beta iota zeta delta [negb].

Section Calls.

Context {double : Type} (dump : json double -> string).

Lemma storeStockData_offline (symbol : string) (data : json double) (s : State) :
  connected (self s) = false ->
  storeStockData dump symbol data s
  = (false, mkState (self s) (say Cerr "❌ Redis not connected" (world s))).
Proof.
  intros Hc. run_call (@storeStockData) Hc. reflexivity.
Qed.

Lemma storeStockData_online (symbol : string) (data : json double) (s : State) :
  connected (self s) = true ->
  storeStockData dump symbol data s
  = let w1 := after_request (world s) (quote_set dump symbol data) in
    match answer (world s) (quote_set dump symbol data) with
    | None => (false, mkState (self s) (say Cerr "❌ Redis SET command failed" w1))
    | Some r =>
        if quote_acknowledged r then
          let w2 := after_request w1 (history_push dump symbol data) in
          let w3 := after_request w2 (history_trim symbol) in
          (true, mkState (self s)
                   (say Cout ("💾 Stored " +:+ symbol +:+ " data in Redis") w3))
        else (false, mkState (self s) w1)
    end.
Proof.
  intros Hc. run_call (@storeStockData) Hc.
  fold (quote_key symbol) (history_key symbol) (blob dump data).
  fold (quote_set dump symbol data) (history_push dump symbol data) (history_trim symbol).
  destruct (answer (world s) (quote_set dump symbol data)) as [r|]; [|reflexivity].
  destruct (quote_acknowledged r); reflexivity.
Qed.

Lemma storeTradingSignal_offline (symbol signal reason : string) (confidence : double)
    (s : State) :
  connected (self s) = false ->
  storeTradingSignal dump symbol signal reason confidence s = (false, s).
Proof.
  intros Hc. run_call (@storeTradingSignal) Hc. reflexivity.
Qed.

Lemma storeTradingSignal_online (symbol signal reason : string) (confidence : double)
    (s : State) :
  connected (self s) = true ->
  storeTradingSignal dump symbol signal reason confidence s
  = let now := clock (world s) in
    let w1 := after_request (world s) (signal_set dump symbol signal reason confidence now) in
    match answer (world s) (signal_set dump symbol signal reason confidence now) with
    | None => (false, mkState (self s) w1)
    | Some r =>
        if signal_acknowledged r then
          let w2 := after_request w1 (stream_push dump symbol signal reason confidence now) in
          (true, mkState (self s)
                   (say Cout ("📡 Stored trading signal: " +:+ symbol +:+ " -> " +:+ signal)
                        w2))
        else (false, mkState (self s) w1)
    end.
Proof.
  intros Hc. run_call (@storeTradingSignal) Hc.
  change (c_str signals_stream) with signals_stream.
  fold (signal_key symbol)
       (signal_blob dump symbol signal reason confidence (clock (world s))).
  fold (signal_set dump symbol signal reason confidence (clock (world s)))
       (stream_push dump symbol signal reason confidence (clock (world s))).
  destruct (answer (world s) _) as [r|]; [|reflexivity].
  destruct (signal_acknowledged r); reflexivity.
Qed.

Lemma publishMarketUpdate_offline (channel : string) (data : json double) (s : State) :
  connected (self s) = false ->
  publishMarketUpdate dump channel data s = (false, s).
Proof.
  intros Hc. run_call (@publishMarketUpdate) Hc. reflexivity.
Qed.

Lemma publishMarketUpdate_online (channel : string) (data : json double) (s : State) :
  connected (self s) = true ->
  publishMarketUpdate dump channel data s
  = (match answer (world s) (publish_request dump channel data) with
     | None => false
     | Some r => publish_acknowledged r
     end,
     mkState (self s) (after_request (world s) (publish_request dump channel data))).
Proof.
  intros Hc. run_call (@publishMarketUpdate) Hc.
  fold (blob dump data). fold (publish_request dump channel data).
  destruct (answer (world s) _); reflexivity.
Qed.

End Calls.

Lemma getStockData_offline (symbol : string) (s : State) :
  connected (self s) = false -> getStockData symbol s = (EmptyString, s).
Proof.
  intros Hc. run_call getStockData Hc. reflexivity.
Qed.

Lemma getStockData_online (symbol : string) (s : State) :
  connected (self s) = true ->
  getStockData symbol s
  = (match answer (world s) (GET (quote_key symbol)) with
     | Some (ReplyString result) => result
     | _ => EmptyString
     end,
     mkState (self s) (after_request (world s) (GET (quote_key symbol)))).
Proof.
  intros Hc. run_call getStockData Hc. fold (quote_key symbol).
  destruct (answer (world s) _) as [[]|]; reflexivity.
Qed.

Lemma getAvailableSymbols_offline (s : State) :
  connected (self s) = false -> getAvailableSymbols s = (Returns [], s).
Proof.
  intros Hc. run_call getAvailableSymbols Hc. reflexivity.
Qed.

(** ** Keys *)

Lemma quote_key_not_history_key (a b : string) : quote_key a <> history_key b.
Proof. unfold quote_key, history_key. cbn. discriminate. Qed.

Lemma signal_key_not_signals_stream (a : string) : signal_key a <> signals_stream.
Proof. unfold signal_key, signals_stream. cbn. discriminate. Qed.

Lemma quote_key_not_signals_stream (a : string) : quote_key a <> signals_stream.
Proof. unfold quote_key, signals_stream. cbn. discriminate. Qed.

(** ** The store under one request *)

Lemma set_keeps_other_keys (w : World) (k v k' : string) :
  k <> k' -> db (snd (round_trip w (SET k v))) !! k' = db (server w) !! k'.
Proof.
  intros Hk. unfold round_trip.
  destruct (fate (next_event w)); simpl; try reflexivity;
    apply lookup_insert_ne; exact Hk.
Qed.

(** The symbols of the stored quotes are listed, the text after the last
    colon of each key. *)
Example symbols_are_listed :
  let s1 := snd (storeStockData sample_dump "AAPL" sample_quote (online [])) in
  let s2 := snd (storeStockData sample_dump "TSLA" sample_quote s1) in
  fst (getAvailableSymbols s2) = Returns ["AAPL"; "TSLA"] /\
  fst (getStockData "MSFT" s2) = EmptyString.
Proof. split; vm_compute; reflexivity. Qed.

(** ** Disconnected clients *)

(** C4. A disconnected client answers every operation with its failure
    sentinel ([false], [false], the empty blob, [false], the empty sequence)
    and hands no command to the store. *)
Theorem disconnected_short_circuit {double : Type} (dump : json double -> string)
    (symbol signal reason channel : string) (data : json double) (confidence : double)
    (s : State) :
  connected (self s) = false ->
  (fst (storeStockData dump symbol data s) = false /\
   no_request s (snd (storeStockData dump symbol data s))) /\
  (fst (storeTradingSignal dump symbol signal reason confidence s) = false /\
   no_request s (snd (storeTradingSignal dump symbol signal reason confidence s))) /\
  (fst (getStockData symbol s) = EmptyString /\
   no_request s (snd (getStockData symbol s))) /\
  (fst (publishMarketUpdate dump channel data s) = false /\
   no_request s (snd (publishMarketUpdate dump channel data s))) /\
  (fst (getAvailableSymbols s) = Returns [] /\
   no_request s (snd (getAvailableSymbols s))).
Proof.
  intros Hc.
  rewrite (storeStockData_offline dump symbol data s Hc).
  rewrite (storeTradingSignal_offline dump symbol signal reason confidence s Hc).
  rewrite (getStockData_offline symbol s Hc).
  rewrite (publishMarketUpdate_offline dump channel data s Hc).
  rewrite (getAvailableSymbols_offline s Hc).
  unfold no_request. simpl. tauto.
Qed.

Lemma disconnected_short_circuit_witness :
  connected (self offline) = false /\
  (fst (storeStockData sample_dump "AAPL" sample_quote offline) = false /\
   no_request offline (snd (storeStockData sample_dump "AAPL" sample_quote offline))) /\
  (fst (storeTradingSignal sample_dump "AAPL" "BUY" "momentum" 87 offline) = false /\
   no_request offline (snd (storeTradingSignal sample_dump "AAPL" "BUY" "momentum" 87 offline))) /\
  (fst (getStockData "AAPL" offline) = EmptyString /\
   no_request offline (snd (getStockData "AAPL" offline))) /\
  (fst (publishMarketUpdate sample_dump "ticks" sample_quote offline) = false /\
   no_request offline (snd (publishMarketUpdate sample_dump "ticks" sample_quote offline))) /\
  (fst (getAvailableSymbols offline) = Returns [] /\
   no_request offline (snd (getAvailableSymbols offline))).
Proof.
  split; [reflexivity|].
  apply (disconnected_short_circuit sample_dump "AAPL" "BUY" "momentum" "ticks"
           sample_quote 87 offline).
  reflexivity.
Defined.

(** ** Success tests *)

(** C5. On a connected client a quote write returns [true] exactly when the
    reply to its [SET] is of status type and its text is ["OK"]; a null
    reply, a reply of another type or another status text gives [false]. *)
Theorem quote_write_success_iff {double : Type} (dump : json double -> string)
    (symbol : string) (data : json double) (s : State) :
  connected (self s) = true ->
  (fst (storeStockData dump symbol data s) = true <->
   exists r, answer (world s) (quote_set dump symbol data) = Some r /\
             rtype r = REDIS_REPLY_STATUS /\ str r = Some "OK").
Proof.
  intros Hc. rewrite (storeStockData_online dump symbol data s Hc). cbv zeta.
  destruct (answer (world s) (quote_set dump symbol data)) as [r|].
  - destruct (quote_acknowledged r) eqn:Hr; simpl; split.
    + intros _. exists r. split; [reflexivity|]. apply quote_acknowledged_spec, Hr.
    + reflexivity.
    + discriminate.
    + intros (r' & [= <-] & Hok). apply quote_acknowledged_spec in Hok. congruence.
  - simpl. split; [discriminate|]. intros (r & [=] & _).
Qed.

Lemma quote_write_success_iff_witness :
  connected (self (online [mkEvent (Refuse (ReplyStatus "ok")) 0])) = true /\
  (fst (storeStockData sample_dump "AAPL" sample_quote
          (online [mkEvent (Refuse (ReplyStatus "ok")) 0])) = true <->
   exists r, answer (world (online [mkEvent (Refuse (ReplyStatus "ok")) 0]))
                    (quote_set sample_dump "AAPL" sample_quote) = Some r /\
             rtype r = REDIS_REPLY_STATUS /\ str r = Some "OK").
Proof.
  split; [reflexivity|].
  apply (quote_write_success_iff sample_dump "AAPL" sample_quote
           (online [mkEvent (Refuse (ReplyStatus "ok")) 0])).
  reflexivity.
Defined.

(** The test of the quote write is case-sensitive and looks at the value. *)
Example quote_write_wants_OK :
  fst (storeStockData sample_dump "AAPL" sample_quote
         (online [mkEvent (Refuse (ReplyStatus "ok")) 0])) = false /\
  fst (storeStockData sample_dump "AAPL" sample_quote
         (online [mkEvent (Refuse (ReplyString "OK")) 0])) = false /\
  fst (storeStockData sample_dump "AAPL" sample_quote
         (online [mkEvent Drop 0])) = false /\
  fst (storeStockData sample_dump "AAPL" sample_quote
         (online [mkEvent Deliver 0])) = true.
Proof. repeat apply conj; reflexivity. Qed.

(** C6. On a connected client a signal write returns [true] exactly when
    the reply to its [SET] is not null and of status type, whatever its
    text; the test of the quote write implies this one and not the other
    way round. *)
Theorem signal_write_success_iff {double : Type} (dump : json double -> string)
    (symbol signal reason : string) (confidence : double) (s : State) :
  connected (self s) = true ->
  (fst (storeTradingSignal dump symbol signal reason confidence s) = true <->
   exists r, answer (world s)
               (signal_set dump symbol signal reason confidence (clock (world s))) = Some r /\
             rtype r = REDIS_REPLY_STATUS) /\
  (forall r, quote_acknowledged r = true -> signal_acknowledged r = true) /\
  (exists r, signal_acknowledged r = true /\ quote_acknowledged r = false).
Proof.
  intros Hc. repeat apply conj.
  - rewrite (storeTradingSignal_online dump symbol signal reason confidence s Hc). cbv zeta.
    destruct (answer (world s) _) as [r|].
    + destruct (signal_acknowledged r) eqn:Hr; simpl.
      * intros _. exists r. split; [reflexivity|]. apply signal_acknowledged_spec, Hr.
      * discriminate.
    + simpl. discriminate.
  - rewrite (storeTradingSignal_online dump symbol signal reason confidence s Hc). cbv zeta.
    intros (r & -> & Hr). apply signal_acknowledged_spec in Hr. rewrite Hr. reflexivity.
  - intros r Hr. apply signal_acknowledged_spec. apply quote_acknowledged_spec in Hr. tauto.
  - exists (ReplyStatus "QUEUED"). split; reflexivity.
Qed.

Lemma signal_write_success_iff_witness :
  connected (self (online [mkEvent (Refuse (ReplyStatus "QUEUED")) 0])) = true /\
  fst (storeTradingSignal sample_dump "AAPL" "BUY" "momentum" 87
         (online [mkEvent (Refuse (ReplyStatus "QUEUED")) 0])) = true.
Proof.
  split; [reflexivity|].
  destruct (signal_write_success_iff sample_dump "AAPL" "BUY" "momentum" 87
              (online [mkEvent (Refuse (ReplyStatus "QUEUED")) 0]) eq_refl)
    as (Hiff & _).
  apply Hiff. exists (ReplyStatus "QUEUED"). split; reflexivity.
Defined.

(** C8. On a connected client a publication returns [true] exactly when the
    reply is of integer type; the number is not looked at, so a channel
    without subscribers, for which the store answers 0, gives [true]. *)
Theorem publish_success_iff {double : Type} (dump : json double -> string)
    (channel : string) (data : json double) (s : State) :
  connected (self s) = true ->
  (fst (publishMarketUpdate dump channel data s) = true <->
   exists r, answer (world s) (publish_request dump channel data) = Some r /\
             rtype r = REDIS_REPLY_INTEGER) /\
  (forall n, answer (world s) (publish_request dump channel data) = Some (ReplyInteger n) ->
             fst (publishMarketUpdate dump channel data s) = true) /\
  (fate (next_event (world s)) = Deliver ->
   subscribers (server (world s)) (c_str channel) = 0%N ->
   answer (world s) (publish_request dump channel data) = Some (ReplyInteger 0) /\
   fst (publishMarketUpdate dump channel data s) = true).
Proof.
  intros Hc. rewrite (publishMarketUpdate_online dump channel data s Hc). simpl fst.
  repeat apply conj.
  - destruct (answer (world s) _) as [r|]; [|discriminate].
    intros Hr. exists r. split; [reflexivity|]. apply publish_acknowledged_spec, Hr.
  - intros (r & -> & Hr). apply publish_acknowledged_spec, Hr.
  - intros n ->. reflexivity.
  - intros Hf Hz. unfold answer, round_trip. rewrite Hf. simpl. rewrite Hz.
    split; reflexivity.
Qed.

Lemma publish_success_iff_witness :
  connected (self (online [])) = true /\
  fate (next_event (world (online []))) = Deliver /\
  subscribers (server (world (online []))) (c_str "ticks") = 0%N /\
  fst (publishMarketUpdate sample_dump "ticks" sample_quote (online [])) = true.
Proof.
  destruct (publish_success_iff sample_dump "ticks" sample_quote (online []) eq_refl)
    as (_ & _ & Hzero).
  repeat apply conj; [reflexivity .. | apply Hzero; reflexivity].
Defined.

(** ** The history follow-on of a quote write *)

(** C2. On a connected client, once the [SET] of a quote write is
    acknowledged the call returns [true] whatever the replies to the [LPUSH]
    and the [LTRIM] are, null and error replies included: both requests are
    made, their replies decide nothing. *)
Theorem history_failures_are_swallowed {double : Type} (dump : json double -> string)
    (symbol : string) (data : json double) (s : State)
    (hist_reply trim_reply : option redisReply) :
  connected (self s) = true ->
  answer (world s) (quote_set dump symbol data) = Some (ReplyStatus "OK") ->
  answer (after_request (world s) (quote_set dump symbol data))
         (history_push dump symbol data) = hist_reply ->
  answer (after_request (after_request (world s) (quote_set dump symbol data))
                        (history_push dump symbol data))
         (history_trim symbol) = trim_reply ->
  fst (storeStockData dump symbol data s) = true /\
  sent (world (snd (storeStockData dump symbol data s)))
  = sent (world s)
    ++ [quote_set dump symbol data; history_push dump symbol data; history_trim symbol].
Proof.
  intros Hc Hset _ _.
  rewrite (storeStockData_online dump symbol data s Hc). cbv zeta.
  rewrite Hset. simpl. rewrite <- !app_assoc. split; reflexivity.
Qed.

Lemma history_failures_are_swallowed_witness :
  let s := online [mkEvent Deliver 0; mkEvent Drop 0;
                   mkEvent (Refuse (ReplyError "OOM command not allowed")) 0] in
  connected (self s) = true /\
  answer (world s) (quote_set sample_dump "AAPL" sample_quote) = Some (ReplyStatus "OK") /\
  answer (after_request (world s) (quote_set sample_dump "AAPL" sample_quote))
         (history_push sample_dump "AAPL" sample_quote) = None /\
  answer (after_request (after_request (world s) (quote_set sample_dump "AAPL" sample_quote))
                        (history_push sample_dump "AAPL" sample_quote))
         (history_trim "AAPL") = Some (ReplyError "OOM command not allowed") /\
  fst (storeStockData sample_dump "AAPL" sample_quote s) = true.
Proof.
  intros s.
  repeat apply conj; [reflexivity .. | ].
  apply (history_failures_are_swallowed sample_dump "AAPL" sample_quote s
           None (Some (ReplyError "OOM command not allowed")));
    reflexivity.
Defined.

(** C3. On a connected client, a quote write whose [SET] is not
    acknowledged (null reply, or a reply failing the success test) returns
    [false] having made that one request only: no [LPUSH], no [LTRIM], and
    every history key of the store holds what it held. *)
Theorem unacknowledged_quote_leaves_history {double : Type} (dump : json double -> string)
    (symbol : string) (data : json double) (s : State) :
  connected (self s) = true ->
  (forall r, answer (world s) (quote_set dump symbol data) = Some r ->
             quote_acknowledged r = false) ->
  fst (storeStockData dump symbol data s) = false /\
  sent (world (snd (storeStockData dump symbol data s)))
  = sent (world s) ++ [quote_set dump symbol data] /\
  forall symbol', db (server (world (snd (storeStockData dump symbol data s))))
                    !! history_key symbol'
                  = db (server (world s)) !! history_key symbol'.
Proof.
  intros Hc Hnack.
  rewrite (storeStockData_online dump symbol data s Hc). cbv zeta.
  destruct (answer (world s) (quote_set dump symbol data)) as [r|].
  - rewrite (Hnack r eq_refl). simpl. repeat apply conj; try reflexivity.
    intros symbol'. apply set_keeps_other_keys, quote_key_not_history_key.
  - simpl. repeat apply conj; try reflexivity.
    intros symbol'. apply set_keeps_other_keys, quote_key_not_history_key.
Qed.

Lemma unacknowledged_quote_leaves_history_witness :
  let s := online [mkEvent Lost 0] in
  connected (self s) = true /\
  (forall r, answer (world s) (quote_set sample_dump "AAPL" sample_quote) = Some r ->
             quote_acknowledged r = false) /\
  fst (storeStockData sample_dump "AAPL" sample_quote s) = false /\
  sent (world (snd (storeStockData sample_dump "AAPL" sample_quote s)))
  = sent (world s) ++ [quote_set sample_dump "AAPL" sample_quote] /\
  forall symbol', db (server (world (snd (storeStockData sample_dump "AAPL" sample_quote s))))
                    !! history_key symbol'
                  = db (server (world s)) !! history_key symbol'.
Proof.
  intros s.
  assert (Hnack : forall r, answer (world s) (quote_set sample_dump "AAPL" sample_quote) = Some r ->
                            quote_acknowledged r = false) by (intros r [=]).
  split; [reflexivity|]. split; [exact Hnack|].
  apply (unacknowledged_quote_leaves_history sample_dump "AAPL" sample_quote s eq_refl Hnack).
Defined.

(** ** Lists in the store *)

Lemma ltrim_cap (l : list string) : ltrim l 0 999 = take HISTORY_CAP l.
Proof.
  unfold ltrim. cbv zeta.
  repeat (change (0 <? 0) with false; cbv iota).
  change (999 <? 0) with false. cbv iota. rewrite orb_false_l.
  destruct (Z.leb_spec (Z.of_nat (length l)) 0) as [Hl|Hl].
  - destruct l; [reflexivity | simpl in Hl; lia].
  - change (Z.to_nat 0) with 0%nat. rewrite drop_0.
    destruct (Z.leb_spec (Z.of_nat (length l)) 999) as [Hs|Hs].
    + replace (Z.to_nat (Z.of_nat (length l) - 1 - 0 + 1)) with (length l) by lia.
      rewrite firstn_all. symmetry. apply take_ge. unfold HISTORY_CAP. lia.
    + reflexivity.
Qed.

Lemma take_app_take {A : Type} (n : nat) (l1 l2 : list A) :
  take n (l1 ++ take n l2) = take n (l1 ++ l2).
Proof.
  rewrite !take_app, take_take. f_equal. f_equal. lia.
Qed.

Lemma pushed_all (bs h : list string) :
  bs <> [] ->
  fold_left (fun h b => pushed b h) bs h = take HISTORY_CAP (rev bs ++ h).
Proof.
  revert h. induction bs as [|b bs IH]; intros h Hne; [congruence|].
  simpl. destruct bs as [|b' bs].
  - reflexivity.
  - rewrite IH by discriminate. unfold pushed.
    change (b :: h) with ([b] ++ h) at 1.
    rewrite take_app_take. simpl rev. rewrite <- !app_assoc. reflexivity.
Qed.

Lemma list_at_same_lookup (srv srv' : Server) (k : string) :
  db srv' !! k = db srv !! k -> list_at srv' k = list_at srv k.
Proof. unfold list_at. intros ->. reflexivity. Qed.

Lemma list_or_free_same_lookup (srv srv' : Server) (k : string) :
  db srv' !! k = db srv !! k -> list_or_free srv k -> list_or_free srv' k.
Proof. unfold list_or_free. intros ->. auto. Qed.

Lemma round_trip_unexecuted (w : World) (c : command) :
  executed (fate (next_event w)) = false -> snd (round_trip w c) = server w.
Proof. unfold round_trip. destruct (fate (next_event w)); simpl; congruence. Qed.

Lemma round_trip_executed (w : World) (c : command) :
  executed (fate (next_event w)) = true -> snd (round_trip w c) = snd (exec (server w) c).
Proof.
  unfold round_trip. destruct (fate (next_event w)); simpl; try congruence.
  destruct (exec (server w) c); reflexivity.
Qed.

(** A request either reaches the store and is executed, or leaves it alone. *)
Lemma round_trip_cases (w : World) (c : command) :
  snd (round_trip w c) = snd (exec (server w) c) \/ snd (round_trip w c) = server w.
Proof.
  destruct (executed (fate (next_event w))) eqn:He.
  - left. apply round_trip_executed, He.
  - right. apply round_trip_unexecuted, He.
Qed.

Lemma exec_lpush_other (srv : Server) (k v k' : string) :
  k <> k' -> db (snd (exec srv (LPUSH k v))) !! k' = db srv !! k'.
Proof.
  intros Hk. simpl. destruct (db srv !! k) as [[|l]|]; simpl; try reflexivity;
    apply lookup_insert_ne, Hk.
Qed.

Lemma exec_ltrim_other (srv : Server) (k k' : string) (start stop : Z) :
  k <> k' -> db (snd (exec srv (LTRIM k start stop))) !! k' = db srv !! k'.
Proof.
  intros Hk. simpl. destruct (db srv !! k) as [[|l]|]; simpl; try reflexivity.
  destruct (ltrim l start stop); simpl.
  - apply lookup_delete_ne, Hk.
  - apply lookup_insert_ne, Hk.
Qed.

Lemma exec_lpush_same (srv : Server) (k v : string) :
  list_or_free srv k -> list_at (snd (exec srv (LPUSH k v))) k = v :: list_at srv k.
Proof.
  intros Hfree. unfold list_at. simpl.
  destruct (db srv !! k) as [[s|l]|] eqn:Hk; simpl.
  - exfalso. exact (Hfree s Hk).
  - rewrite lookup_insert_eq. reflexivity.
  - rewrite lookup_insert_eq. reflexivity.
Qed.

Lemma exec_ltrim_same (srv : Server) (k : string) :
  list_at (snd (exec srv (LTRIM k 0 999))) k = take HISTORY_CAP (list_at srv k).
Proof.
  unfold list_at. simpl.
  destruct (db srv !! k) as [[s|l]|] eqn:Hk; simpl.
  - rewrite Hk. reflexivity.
  - rewrite ltrim_cap. destruct (take HISTORY_CAP l) eqn:Ht; simpl.
    + rewrite lookup_delete_eq. reflexivity.
    + rewrite lookup_insert_eq. reflexivity.
  - rewrite Hk. reflexivity.
Qed.

Lemma exec_list_or_free (srv : Server) (c : command) (k : string) :
  (forall k' v, c = SET k' v -> k' <> k) ->
  list_or_free srv k -> list_or_free (snd (exec srv c)) k.
Proof.
  intros Hset Hfree s. destruct c as [k' v|k' v|k' a b|k'|ch m|p]; simpl.
  - rewrite lookup_insert_ne by (eapply Hset; reflexivity). apply Hfree.
  - destruct (db srv !! k') as [[|l]|]; simpl; try apply Hfree.
    + destruct (decide (k' = k)) as [->|Hne].
      * rewrite lookup_insert_eq. discriminate.
      * rewrite lookup_insert_ne by exact Hne. apply Hfree.
    + destruct (decide (k' = k)) as [->|Hne].
      * rewrite lookup_insert_eq. discriminate.
      * rewrite lookup_insert_ne by exact Hne. apply Hfree.
  - destruct (db srv !! k') as [[|l]|]; simpl; try apply Hfree.
    destruct (ltrim l a b); simpl.
    + destruct (decide (k' = k)) as [->|Hne].
      * rewrite lookup_delete_eq. discriminate.
      * rewrite lookup_delete_ne by exact Hne. apply Hfree.
    + destruct (decide (k' = k)) as [->|Hne].
      * rewrite lookup_insert_eq. discriminate.
      * rewrite lookup_insert_ne by exact Hne. apply Hfree.
  - destruct (db srv !! k') as [[|l]|]; simpl; apply Hfree.
  - apply Hfree.
  - apply Hfree.
Qed.

Lemma round_trip_list_or_free (w : World) (c : command) (k : string) :
  (forall k' v, c = SET k' v -> k' <> k) ->
  list_or_free (server w) k -> list_or_free (snd (round_trip w c)) k.
Proof.
  intros Hset Hfree. destruct (round_trip_cases w c) as [-> | ->].
  - apply exec_list_or_free; assumption.
  - exact Hfree.
Qed.

Lemma round_trip_lpush_other (w : World) (k v k' : string) :
  k <> k' -> db (snd (round_trip w (LPUSH k v))) !! k' = db (server w) !! k'.
Proof.
  intros Hk. destruct (round_trip_cases w (LPUSH k v)) as [-> | ->];
    [apply exec_lpush_other, Hk | reflexivity].
Qed.

Lemma round_trip_ltrim_other (w : World) (k k' : string) (start stop : Z) :
  k <> k' -> db (snd (round_trip w (LTRIM k start stop))) !! k' = db (server w) !! k'.
Proof.
  intros Hk. destruct (round_trip_cases w (LTRIM k start stop)) as [-> | ->];
    [apply exec_ltrim_other, Hk | reflexivity].
Qed.

(** ** The coming events *)

Lemma fate_next (w : World) : fate (next_event w) = fate_at w 0.
Proof. unfold next_event, fate_at. destruct (schedule w); reflexivity. Qed.

Lemma fate_after_request (w : World) (c : command) (i : nat) :
  fate_at (after_request w c) i = fate_at w (S i).
Proof.
  unfold fate_at, after_request. simpl. destruct (schedule w); simpl; [|reflexivity].
  destruct i; reflexivity.
Qed.

(** ** The history of a symbol over a run of quote writes *)

Section History.

Context {double : Type} (dump : json double -> string).

Lemma storeStockData_connected (symbol : string) (data : json double) (s : State) :
  connected (self (snd (storeStockData dump symbol data s))) = connected (self s).
Proof. rewrite keeps_self_storeStockData. reflexivity. Qed.

(** The store after a quote write, as the three requests leave it. *)
Lemma storeStockData_server (symbol : string) (data : json double) (s : State) :
  connected (self s) = true ->
  let w1 := after_request (world s) (quote_set dump symbol data) in
  let w2 := after_request w1 (history_push dump symbol data) in
  server (world (snd (storeStockData dump symbol data s)))
  = if fst (storeStockData dump symbol data s)
    then snd (round_trip w2 (history_trim symbol))
    else server w1.
Proof.
  intros Hc. rewrite (storeStockData_online dump symbol data s Hc). cbv zeta.
  destruct (answer (world s) _) as [r|]; [|reflexivity].
  destruct (quote_acknowledged r); reflexivity.
Qed.

Lemma storeStockData_list_or_free (symbol : string) (data : json double) (s : State)
    (hk : string) :
  connected (self s) = true ->
  (forall symbol', quote_key symbol' <> hk) ->
  list_or_free (server (world s)) hk ->
  list_or_free (server (world (snd (storeStockData dump symbol data s)))) hk.
Proof.
  intros Hc Hhk Hfree. rewrite (storeStockData_server symbol data s Hc). cbv zeta.
  assert (H1 : list_or_free
                 (server (after_request (world s) (quote_set dump symbol data))) hk).
  { apply round_trip_list_or_free; [|exact Hfree]. intros k' v [= <- _]. apply Hhk. }
  destruct (fst (storeStockData dump symbol data s)); [|exact H1].
  apply round_trip_list_or_free; [discriminate|].
  apply round_trip_list_or_free; [discriminate|]. exact H1.
Qed.

(** One quote write, seen from the history key [hk]. *)
Lemma storeStockData_history (symbol : string) (data : json double) (s : State)
    (hk : string) :
  connected (self s) = true ->
  (forall symbol', quote_key symbol' <> hk) ->
  list_or_free (server (world s)) hk ->
  implb (fst (storeStockData dump symbol data s))
        (executed (fate_at (world s) 1) && executed (fate_at (world s) 2)) = true ->
  list_at (server (world (snd (storeStockData dump symbol data s)))) hk
  = if fst (storeStockData dump symbol data s) && bool_decide (history_key symbol = hk)
    then pushed (blob dump data) (list_at (server (world s)) hk)
    else list_at (server (world s)) hk.
Proof.
  intros Hc Hhk Hfree Hex. rewrite (storeStockData_server symbol data s Hc). cbv zeta.
  set (w1 := after_request (world s) (quote_set dump symbol data)).
  set (w2 := after_request w1 (history_push dump symbol data)).
  assert (Hset : db (server w1) !! hk = db (server (world s)) !! hk)
    by (apply set_keeps_other_keys, Hhk).
  destruct (fst (storeStockData dump symbol data s)); simpl in *.
  - apply andb_true_iff in Hex as [Hpush Htrim].
    case_bool_decide as Hk.
    + subst hk.
      rewrite round_trip_executed
        by (subst w2 w1; rewrite fate_next, !fate_after_request; exact Htrim).
      unfold history_trim. rewrite exec_ltrim_same. unfold pushed. f_equal.
      change (server w2) with (snd (round_trip w1 (history_push dump symbol data))).
      rewrite round_trip_executed
        by (subst w1; rewrite fate_next, fate_after_request; exact Hpush).
      unfold history_push. rewrite exec_lpush_same.
      * f_equal. apply list_at_same_lookup, Hset.
      * eapply list_or_free_same_lookup; [exact Hset | exact Hfree].
    + apply list_at_same_lookup.
      unfold history_trim. rewrite round_trip_ltrim_other by exact Hk.
      change (server w2) with (snd (round_trip w1 (history_push dump symbol data))).
      unfold history_push. rewrite round_trip_lpush_other by exact Hk.
      exact Hset.
  - apply list_at_same_lookup, Hset.
Qed.

Lemma store_all_cons (symbol : string) (data : json double)
    (rest : list (string * json double)) (s : State) :
  snd (store_all dump ((symbol, data) :: rest) s)
  = snd (store_all dump rest (snd (storeStockData dump symbol data s))).
Proof.
  simpl. rewrite bind_run. rewrite bind_run. reflexivity.
Qed.

(** The history after a run is the history before it with the written
    blobs pushed one after the other. *)
Lemma store_all_history (writes : list (string * json double)) (s : State) (hk : string) :
  connected (self s) = true ->
  (forall symbol', quote_key symbol' <> hk) ->
  list_or_free (server (world s)) hk ->
  follow_ons_executed dump writes s = true ->
  list_at (server (world (snd (store_all dump writes s)))) hk
  = fold_left (fun h b => pushed b h) (written_to dump hk writes s)
              (list_at (server (world s)) hk).
Proof.
  revert s. induction writes as [|[symbol data] rest IH]; intros s Hc Hhk Hfree Hrun.
  - reflexivity.
  - rewrite store_all_cons. simpl in Hrun. apply andb_true_iff in Hrun as [Hstep Hrest].
    rewrite IH; try assumption.
    + simpl written_to. rewrite fold_left_app. f_equal.
      rewrite (storeStockData_history symbol data s hk Hc Hhk Hfree Hstep).
      destruct (fst (storeStockData dump symbol data s) &&
                bool_decide (history_key symbol = hk)); reflexivity.
    + rewrite storeStockData_connected. exact Hc.
    + apply storeStockData_list_or_free; assumption.
Qed.

End History.

(** C1 (amended). On a connected client, over any run of quote writes in
    which the store executes the [LPUSH] and the [LTRIM] of every write that
    returns [true], and for any symbol whose history key is free or holds a
    list: each such write to the symbol puts its blob in front of the
    history and cuts the history to its newest 1000 entries.  Hence the
    history is unchanged when no such write went to the symbol, has at most
    1000 entries after at least one, and after 1000 or more it has exactly
    1000 entries, the 1000 blobs written last, newest first. *)
Theorem history_capped_when_follow_ons_run {double : Type} (dump : json double -> string)
    (symbol : string) (writes : list (string * json double)) (s : State) :
  connected (self s) = true ->
  list_or_free (server (world s)) (history_key symbol) ->
  follow_ons_executed dump writes s = true ->
  let before := list_at (server (world s)) (history_key symbol) in
  let after :=
    list_at (server (world (snd (store_all dump writes s)))) (history_key symbol) in
  let blobs := written_to dump (history_key symbol) writes s in
  (blobs = [] -> after = before) /\
  (blobs <> [] ->
   after = take HISTORY_CAP (rev blobs ++ before) /\ (length after <= HISTORY_CAP)%nat) /\
  ((HISTORY_CAP <= length blobs)%nat ->
   after = take HISTORY_CAP (rev blobs) /\ length after = HISTORY_CAP).
Proof.
  intros Hc Hfree Hrun before after blobs.
  assert (Hfold : after = fold_left (fun h b => pushed b h) blobs before).
  { apply store_all_history; try assumption.
    intros symbol'. apply quote_key_not_history_key. }
  assert (Hclosed : blobs <> [] -> after = take HISTORY_CAP (rev blobs ++ before)).
  { intros Hne. rewrite Hfold. apply pushed_all, Hne. }
  repeat apply conj.
  - intros Hnil. rewrite Hfold, Hnil. reflexivity.
  - intros Hne. split; [apply Hclosed, Hne|].
    rewrite (Hclosed Hne), length_take. lia.
  - intros Hlen.
    assert (Hne : blobs <> []).
    { intros Hnil. rewrite Hnil in Hlen. unfold HISTORY_CAP in Hlen. simpl in Hlen. lia. }
    rewrite (Hclosed Hne).
    rewrite take_app_le by (rewrite length_rev; exact Hlen).
    split; [reflexivity|]. rewrite length_take, length_rev. lia.
Qed.

Lemma history_capped_when_follow_ons_run_witness :
  let writes := repeat ("AAPL", sample_quote) 1001 in
  let s := online [] in
  let before := list_at (server (world s)) (history_key "AAPL") in
  let after :=
    list_at (server (world (snd (store_all sample_dump writes s)))) (history_key "AAPL") in
  let blobs := written_to sample_dump (history_key "AAPL") writes s in
  connected (self s) = true /\
  list_or_free (server (world s)) (history_key "AAPL") /\
  follow_ons_executed sample_dump writes s = true /\
  (HISTORY_CAP <= length blobs)%nat /\
  after = take HISTORY_CAP (rev blobs) /\ length after = HISTORY_CAP.
Proof.
  intros writes s before after blobs.
  assert (Hc : connected (self s) = true) by reflexivity.
  assert (Hfree : list_or_free (server (world s)) (history_key "AAPL"))
    by (intros v; discriminate).
  assert (Hrun : follow_ons_executed sample_dump writes s = true)
    by (vm_compute; reflexivity).
  assert (Hlen : (HISTORY_CAP <= length blobs)%nat)
    by (apply Nat.leb_le; vm_compute; reflexivity).
  destruct (history_capped_when_follow_ons_run sample_dump "AAPL" writes s Hc Hfree Hrun)
    as (_ & _ & Hfull).
  repeat apply conj; try assumption; apply (Hfull Hlen).
Defined.

(** C1, as stated, fails.  A quote write returns [true] although its
    [LPUSH] and [LTRIM] got null replies, and the history has no entry for
    it; and a write whose [LTRIM] alone got a null reply leaves a history of
    1001 entries. *)
Lemma successful_write_may_skip_history :
  let dropped := online [mkEvent Deliver 0; mkEvent Drop 0; mkEvent Drop 0] in
  let untrimmed :=
    online (repeat (mkEvent Deliver 0) 3000
            ++ [mkEvent Deliver 0; mkEvent Deliver 0; mkEvent Drop 0]) in
  let writes := repeat ("AAPL", sample_quote) 1001 in
  (connected (self dropped) = true /\
   fst (storeStockData sample_dump "AAPL" sample_quote dropped) = true /\
   list_at (server (world (snd (storeStockData sample_dump "AAPL" sample_quote dropped))))
           (history_key "AAPL") = []) /\
  (connected (self untrimmed) = true /\
   fst (store_all sample_dump writes untrimmed) = repeat true 1001 /\
   length (list_at (server (world (snd (store_all sample_dump writes untrimmed))))
                   (history_key "AAPL")) = 1001%nat).
Proof.
  intros dropped untrimmed writes.
  split; repeat apply conj; vm_compute; reflexivity.
Qed.

(** ** The signal queue *)

Lemma clock_after_request (w : World) (c : command) : clock w <= clock (after_request w c).
Proof. unfold after_request. simpl. lia. Qed.

(** C7 (amended). On a connected client, a signal write that returns [true]
    has sent the blob of one document, first to the symbol's latest-signal
    key and then to the signal queue: the document made of the given symbol,
    signal, reason and confidence, a timestamp read between the start and
    the end of the call, and the source ["cpp_engine"].  When the store
    executes the [LPUSH] (the queue key being free or holding a list) the
    queue has exactly one entry more and that blob is its new head; when
    the store does not execute the [LPUSH] (the request is dropped, or
    refused with an error reply) the queue is unchanged.  The latest-signal
    key holds the blob whenever the store executed the [SET]. *)
Theorem signal_queue_grows_when_push_runs {double : Type} (dump : json double -> string)
    (symbol signal reason : string) (confidence : double) (s : State) :
  connected (self s) = true ->
  fst (storeTradingSignal dump symbol signal reason confidence s) = true ->
  exists timestamp : Z,
    let s' := snd (storeTradingSignal dump symbol signal reason confidence s) in
    let document := signal_data symbol signal reason confidence timestamp in
    clock (world s) <= timestamp <= clock (world s') /\
    sent (world s')
    = sent (world s) ++ [SET (signal_key symbol) (blob dump document);
                         LPUSH signals_stream (blob dump document)] /\
    (executed (fate_at (world s) 1) = true ->
     list_or_free (server (world s)) signals_stream ->
     list_at (server (world s')) signals_stream
     = blob dump document :: list_at (server (world s)) signals_stream /\
     length (list_at (server (world s')) signals_stream)
     = S (length (list_at (server (world s)) signals_stream))) /\
    (executed (fate_at (world s) 1) = false ->
     list_at (server (world s')) signals_stream
     = list_at (server (world s)) signals_stream) /\
    (executed (fate_at (world s) 0) = true ->
     db (server (world s')) !! signal_key symbol = Some (VString (blob dump document))).
Proof.
  intros Hc Hok. exists (clock (world s)). cbv zeta.
  rewrite (storeTradingSignal_online dump symbol signal reason confidence s Hc) in *.
  cbv zeta in *.
  set (now := clock (world s)) in *.
  set (set_request := signal_set dump symbol signal reason confidence now) in *.
  set (push_request := stream_push dump symbol signal reason confidence now) in *.
  destruct (answer (world s) set_request) as [r|]; [|discriminate].
  destruct (signal_acknowledged r); [|discriminate].
  simpl fst in *. simpl snd. simpl world. clear Hok.
  set (w1 := after_request (world s) set_request).
  assert (Hstream : db (server w1) !! signals_stream = db (server (world s)) !! signals_stream)
    by (apply set_keeps_other_keys, signal_key_not_signals_stream).
  assert (Hserver : server (say Cout ("📡 Stored trading signal: " +:+ symbol +:+ " -> "
                                      +:+ signal)
                              (after_request w1 push_request))
                    = snd (round_trip w1 push_request)) by reflexivity.
  rewrite Hserver.
  assert (Hqueue : executed (fate_at (world s) 1) = true ->
                   list_or_free (server (world s)) signals_stream ->
                   list_at (snd (round_trip w1 push_request)) signals_stream
                   = blob dump (signal_data symbol signal reason confidence now)
                     :: list_at (server (world s)) signals_stream).
  { intros Hpush Hfree.
    rewrite round_trip_executed
      by (subst w1; rewrite fate_next, fate_after_request; exact Hpush).
    subst push_request. unfold stream_push, signal_blob. rewrite exec_lpush_same.
    - f_equal. apply list_at_same_lookup, Hstream.
    - eapply list_or_free_same_lookup; [exact Hstream | exact Hfree]. }
  repeat apply conj.
  - subst now. lia.
  - pose proof (clock_after_request (world s) set_request).
    pose proof (clock_after_request w1 push_request).
    subst now w1. simpl clock in *. lia.
  - simpl. rewrite <- app_assoc. reflexivity.
  - intros Hpush Hfree. split; [apply Hqueue; assumption|].
    rewrite (Hqueue Hpush Hfree). reflexivity.
  - intros Hskip.
    rewrite round_trip_unexecuted
      by (subst w1; rewrite fate_next, fate_after_request; exact Hskip).
    apply list_at_same_lookup, Hstream.
  - intros Hset. subst push_request. unfold stream_push.
    rewrite round_trip_lpush_other
      by (intros Heq; exact (signal_key_not_signals_stream symbol (eq_sym Heq))).
    subst w1. change (server (after_request (world s) set_request))
      with (snd (round_trip (world s) set_request)).
    rewrite round_trip_executed by (rewrite fate_next; exact Hset).
    subst set_request. unfold signal_set, signal_blob. simpl. apply lookup_insert_eq.
Qed.

Lemma signal_queue_grows_when_push_runs_witness :
  let s := online [mkEvent Deliver 1; mkEvent Lost 2] in
  connected (self s) = true /\
  fst (storeTradingSignal sample_dump "AAPL" "BUY" "momentum" 87 s) = true /\
  executed (fate_at (world s) 1) = true /\
  list_or_free (server (world s)) signals_stream /\
  exists timestamp : Z,
    clock (world s) <= timestamp
    <= clock (world (snd (storeTradingSignal sample_dump "AAPL" "BUY" "momentum" 87 s))) /\
    list_at (server (world (snd (storeTradingSignal sample_dump "AAPL" "BUY" "momentum" 87 s))))
            signals_stream
    = blob sample_dump (signal_data "AAPL" "BUY" "momentum" 87 timestamp)
      :: list_at (server (world s)) signals_stream.
Proof.
  intros s.
  assert (Hfree : list_or_free (server (world s)) signals_stream)
    by (intros v; discriminate).
  destruct (signal_queue_grows_when_push_runs sample_dump "AAPL" "BUY" "momentum" 87 s
              eq_refl eq_refl) as (timestamp & Hwindow & _ & Hgrows & _).
  destruct (Hgrows eq_refl Hfree) as [Hqueue _].
  repeat apply conj; try reflexivity; try exact Hfree.
  exists timestamp. split; [exact Hwindow | exact Hqueue].
Defined.

(** C7, as stated, fails.  A signal write whose [SET] is acknowledged and
    whose [LPUSH] never reaches the store (null reply) returns [true]; the
    signal queue is as long as before, here empty. *)
Lemma successful_signal_may_skip_queue :
  let s := online [mkEvent Deliver 0; mkEvent Drop 0] in
  connected (self s) = true /\
  fst (storeTradingSignal sample_dump "AAPL" "BUY" "momentum" 87 s) = true /\
  list_at (server (world s)) signals_stream = [] /\
  list_at (server (world (snd (storeTradingSignal sample_dump "AAPL" "BUY" "momentum" 87 s))))
          signals_stream = [].
Proof.
  intros s. repeat apply conj; vm_compute; reflexivity.
Qed.

(** ** Reading a quote back *)

Lemma c_str_no_nul (s : string) : no_nul s = true -> c_str s = s.
Proof.
  induction s as [|c s IH]; simpl; [reflexivity|].
  destruct (Ascii.eqb c Ascii.zero); simpl; [discriminate|].
  intros H. rewrite IH by exact H. reflexivity.
Qed.

Lemma c_str_idempotent (s : string) : c_str (c_str s) = c_str s.
Proof.
  induction s as [|c s IH]; simpl; [reflexivity|].
  destruct (Ascii.eqb c Ascii.zero) eqn:Hc; simpl; [reflexivity|].
  rewrite Hc, IH. reflexivity.
Qed.

(** The quote key after a quote write that returned [true] and whose [SET]
    the store executed. *)
Lemma storeStockData_quote {double : Type} (dump : json double -> string)
    (symbol : string) (data : json double) (s : State) :
  connected (self s) = true ->
  fst (storeStockData dump symbol data s) = true ->
  executed (fate_at (world s) 0) = true ->
  db (server (world (snd (storeStockData dump symbol data s)))) !! quote_key symbol
  = Some (VString (blob dump data)).
Proof.
  intros Hc Hok Hset. rewrite (storeStockData_server dump symbol data s Hc). cbv zeta.
  rewrite Hok. unfold history_trim.
  rewrite round_trip_ltrim_other
    by (intros Heq; exact (quote_key_not_history_key symbol symbol (eq_sym Heq))).
  change (server (after_request (after_request (world s) (quote_set dump symbol data))
                                (history_push dump symbol data)))
    with (snd (round_trip (after_request (world s) (quote_set dump symbol data))
                          (history_push dump symbol data))).
  unfold history_push.
  rewrite round_trip_lpush_other
    by (intros Heq; exact (quote_key_not_history_key symbol symbol (eq_sym Heq))).
  change (server (after_request (world s) (quote_set dump symbol data)))
    with (snd (round_trip (world s) (quote_set dump symbol data))).
  rewrite round_trip_executed by (rewrite fate_next; exact Hset).
  unfold quote_set. simpl. apply lookup_insert_eq.
Qed.

(** C9 (amended). Let the serialised text of [data] hold no NUL byte and
    read back as [data].  After a quote write on a connected client that
    returned [true] and whose [SET] the store executed, a read of the same
    symbol on a connected client, in any later state whose quote key holds
    what the write left there and whose [GET] the store answers, returns
    the serialised text, which reads back as [data]. *)
Theorem quote_round_trip {double : Type} (dump : json double -> string)
    (parse : string -> option (json double))
    (symbol : string) (data : json double) (s later : State) :
  connected (self s) = true ->
  fst (storeStockData dump symbol data s) = true ->
  executed (fate_at (world s) 0) = true ->
  connected (self later) = true ->
  db (server (world later)) !! quote_key symbol
  = db (server (world (snd (storeStockData dump symbol data s)))) !! quote_key symbol ->
  fate_at (world later) 0 = Deliver ->
  no_nul (dump data) = true ->
  parse (dump data) = Some data ->
  fst (getStockData symbol later) = dump data /\
  parse (fst (getStockData symbol later)) = Some data.
Proof.
  intros Hc Hok Hset Hlater Hkey Hget Hnul Hparse.
  assert (Hblob : fst (getStockData symbol later) = dump data).
  { rewrite (getStockData_online symbol later Hlater). simpl fst.
    unfold answer, round_trip. rewrite fate_next, Hget. simpl.
    rewrite Hkey, (storeStockData_quote dump symbol data s Hc Hok Hset). simpl.
    unfold blob. rewrite c_str_idempotent. apply c_str_no_nul, Hnul. }
  split; [exact Hblob|]. rewrite Hblob. exact Hparse.
Qed.

Lemma quote_round_trip_witness :
  let s := online [] in
  let later := snd (storeStockData sample_dump "AAPL" sample_quote s) in
  connected (self s) = true /\
  fst (storeStockData sample_dump "AAPL" sample_quote s) = true /\
  executed (fate_at (world s) 0) = true /\
  connected (self later) = true /\
  fate_at (world later) 0 = Deliver /\
  no_nul (sample_dump sample_quote) = true /\
  sample_parse sample_quote (sample_dump sample_quote) = Some sample_quote /\
  fst (getStockData "AAPL" later) = sample_dump sample_quote /\
  sample_parse sample_quote (fst (getStockData "AAPL" later)) = Some sample_quote.
Proof.
  intros s later.
  pose proof (quote_round_trip sample_dump (sample_parse sample_quote) "AAPL" sample_quote
                s later eq_refl eq_refl eq_refl eq_refl eq_refl eq_refl eq_refl eq_refl)
    as [Hblob Hparse].
  repeat apply conj; try reflexivity; assumption.
Defined.

(** C9, as stated, fails.  After a quote write that returned [true], a read
    whose [GET] gets a null reply returns the empty blob, whatever document
    was written: no reader maps the empty blob to both of two different
    documents. *)
Lemma read_after_write_may_be_empty :
  let s := online [mkEvent Deliver 0; mkEvent Deliver 0; mkEvent Deliver 0; mkEvent Drop 0] in
  let other : json Z := JObject [("price", JInteger 190)] in
  connected (self s) = true /\
  fst (storeStockData sample_dump "AAPL" sample_quote s) = true /\
  connected (self (snd (storeStockData sample_dump "AAPL" sample_quote s))) = true /\
  fst (getStockData "AAPL" (snd (storeStockData sample_dump "AAPL" sample_quote s)))
  = EmptyString /\
  fst (storeStockData sample_dump "AAPL" other s) = true /\
  fst (getStockData "AAPL" (snd (storeStockData sample_dump "AAPL" other s)))
  = EmptyString /\
  (forall parse : string -> option (json Z),
     ~ (parse (fst (getStockData "AAPL"
                      (snd (storeStockData sample_dump "AAPL" sample_quote s))))
        = Some sample_quote /\
        parse (fst (getStockData "AAPL" (snd (storeStockData sample_dump "AAPL" other s))))
        = Some other)).
Proof.
  intros s other.
  assert (H1 : fst (getStockData "AAPL"
                      (snd (storeStockData sample_dump "AAPL" sample_quote s)))
               = EmptyString) by (vm_compute; reflexivity).
  assert (H2 : fst (getStockData "AAPL" (snd (storeStockData sample_dump "AAPL" other s)))
               = EmptyString) by (vm_compute; reflexivity).
  repeat apply conj; try (vm_compute; reflexivity).
  intros parse [Ha Hb]. rewrite H1 in Ha. rewrite H2 in Hb.
  rewrite Ha in Hb. discriminate Hb.
Qed.

(** * Further properties of the member functions *)

(** ** Connecting *)

Lemma connect_run (s : State) :
  connect s
  = match network (world s) with
    | NoMemory :: rest =>
        (false,
         mkState (mkClient None (host (self s)) (port (self s)) false)
                 (say Cerr "Can't allocate redis context"
                    (mkWorld (server (world s)) (schedule (world s)) rest
                             (sent (world s)) (clock (world s)) (console (world s)))))
    | Unreachable e :: rest =>
        (false,
         mkState (mkClient None (host (self s)) (port (self s)) false)
                 (say Cerr ("Redis connection error: " +:+ e)
                    (mkWorld (server (world s)) (schedule (world s)) rest
                             (sent (world s)) (clock (world s)) (console (world s)))))
    | other =>
        (true,
         mkState (mkClient (Some (mkContext 0 "")) (host (self s)) (port (self s)) true)
                 (say Cout ("✅ Connected to Redis at " +:+ host (self s) +:+ ":"
                            +:+ pretty (port (self s)))
                    (mkWorld (server (world s)) (schedule (world s)) (tail other)
                             (sent (world s)) (clock (world s)) (console (world s)))))
    end.
Proof.
  cbv beta iota zeta delta [connect bind ret get_host get_port redisConnect set_context
                            set_connected print].
  destruct (network (world s)) as [|[|e|] rest]; reflexivity.
Qed.

(** X1. [connect] returns the value it leaves in the [connected] flag.  It
    succeeds exactly when [redisConnect] gives a context without error; on
    failure the handle is null.  It keeps host and port and hands no command
    to the store. *)
Theorem connect_outcome (s : State) :
  fst (connect s) = connected (self (snd (connect s))) /\
  (fst (connect s) = true <->
   forall rest, network (world s) <> NoMemory :: rest /\
                forall e, network (world s) <> Unreachable e :: rest) /\
  (fst (connect s) = true -> context (self (snd (connect s))) = Some (mkContext 0 "")) /\
  (fst (connect s) = false -> context (self (snd (connect s))) = None) /\
  host (self (snd (connect s))) = host (self s) /\
  port (self (snd (connect s))) = port (self s) /\
  no_request s (snd (connect s)).
Proof.
  rewrite connect_run. unfold no_request.
  destruct (network (world s)) as [|[|e|] rest]; simpl;
    repeat apply conj; try reflexivity; try discriminate;
    try (intros _ rest'; split; [|intros e']; discriminate).
  - intros H. destruct (H rest) as [H1 _]. congruence.
  - intros H. destruct (H rest) as [_ H2]. exfalso. exact (H2 e eq_refl).
Qed.

Lemma connect_handle_matches_flag (s : State) :
  handle_matches_flag (self (snd (connect s))).
Proof.
  unfold handle_matches_flag. rewrite connect_run.
  destruct (network (world s)) as [|[|e|] rest]; simpl; split; congruence.
Qed.

Lemma connect_host_port (s : State) :
  host (self (snd (connect s))) = host (self s) /\
  port (self (snd (connect s))) = port (self s).
Proof.
  rewrite connect_run.
  destruct (network (world s)) as [|[|e|] rest]; simpl; split; reflexivity.
Qed.

Section Calls_in_sequence.

Context {double : Type} (dump : json double -> string).

Lemma perform_operation_self (c : call double) (s : State) :
  is_operation c = true -> self (snd (perform dump c s)) = self s.
Proof.
  intros Hop. destruct c; try discriminate; unfold perform; rewrite bind_run; simpl snd.
  - reflexivity.
  - apply keeps_self_storeStockData.
  - apply keeps_self_storeTradingSignal.
  - apply keeps_self_getStockData.
  - apply keeps_self_publishMarketUpdate.
  - apply keeps_self_getAvailableSymbols.
Qed.

Lemma perform_connect (s : State) :
  snd (perform dump CallConnect s) = snd (connect s).
Proof. unfold perform. rewrite bind_run. reflexivity. Qed.

Lemma perform_all_cons (c : call double) (rest : list (call double)) (s : State) :
  snd (perform_all dump (c :: rest) s) = snd (perform_all dump rest (snd (perform dump c s))).
Proof. simpl. rewrite bind_run. reflexivity. Qed.

Lemma perform_all_invariant (calls : list (call double)) (s : State) :
  handle_matches_flag (self s) ->
  handle_matches_flag (self (snd (perform_all dump calls s))) /\
  host (self (snd (perform_all dump calls s))) = host (self s) /\
  port (self (snd (perform_all dump calls s))) = port (self s).
Proof.
  revert s. induction calls as [|c rest IH]; intros s Hinv.
  - simpl. auto.
  - rewrite perform_all_cons.
    destruct (is_operation c) eqn:Hop.
    + pose proof (perform_operation_self c s Hop) as Hself.
      destruct (IH (snd (perform dump c s))) as (H1 & H2 & H3).
      { rewrite Hself. exact Hinv. }
      rewrite Hself in H2, H3. auto.
    + destruct c; try discriminate. rewrite perform_connect.
      destruct (IH (snd (connect s)) (connect_handle_matches_flag s)) as (H1 & H2 & H3).
      destruct (connect_host_port s) as [Hh Hp].
      rewrite Hh in H2. rewrite Hp in H3. auto.
Qed.

End Calls_in_sequence.

(** X2. Whatever calls are made on an object after its construction,
    [connect] among them, the handle is non-null exactly when the object
    says it is connected, host and port are those given to the constructor,
    and the destructor releases the handle exactly when the object is
    connected. *)
Theorem handle_follows_connected_flag {double : Type} (dump : json double -> string)
    (redis_host : string) (redis_port : Z) (w : World) (calls : list (call double)) :
  let s := snd (perform_all dump calls (RedisClient_new redis_host redis_port w)) in
  (connected (self s) = true <-> context (self s) <> None) /\
  host (self s) = redis_host /\
  port (self s) = redis_port /\
  destructor_frees (self s) = connected (self s).
Proof.
  intros s.
  destruct (perform_all_invariant dump calls (RedisClient_new redis_host redis_port w))
    as (Hinv & Hh & Hp).
  { apply connect_handle_matches_flag. }
  destruct (connect_host_port (mkState (mkClient None redis_host redis_port false) w))
    as [Hh0 Hp0].
  fold s in Hinv, Hh, Hp.
  repeat apply conj.
  - apply Hinv.
  - apply Hinv.
  - rewrite Hh. exact Hh0.
  - rewrite Hp. exact Hp0.
  - unfold destructor_frees. destruct (connected (self s)) eqn:Hc.
    + rewrite andb_true_r. apply bool_decide_eq_true. apply Hinv. exact Hc.
    + apply andb_false_r.
Qed.

Lemma no_request_refl (s : State) : no_request s s.
Proof. unfold no_request. auto. Qed.

Lemma no_request_trans (s1 s2 s3 : State) :
  no_request s1 s2 -> no_request s2 s3 -> no_request s1 s3.
Proof.
  unfold no_request. intros (H1 & H2 & H3) (H4 & H5 & H6).
  repeat apply conj; congruence.
Qed.

Lemma perform_offline {double : Type} (dump : json double -> string) (c : call double)
    (s : State) :
  connected (self s) = false ->
  is_operation c = true ->
  no_request s (snd (perform dump c s)).
Proof.
  intros Hc Hop. destruct c; try discriminate; unfold perform; rewrite bind_run; simpl snd.
  - apply no_request_refl.
  - rewrite (storeStockData_offline dump symbol data s Hc). unfold no_request. simpl. auto.
  - rewrite (storeTradingSignal_offline dump symbol signal reason confidence s Hc).
    apply no_request_refl.
  - rewrite (getStockData_offline symbol s Hc). apply no_request_refl.
  - rewrite (publishMarketUpdate_offline dump channel data s Hc). apply no_request_refl.
  - rewrite (getAvailableSymbols_offline s Hc). apply no_request_refl.
Qed.

(** X3. A disconnected object, such as one whose construction failed to
    connect, stays disconnected and never contacts the store, however many
    operations are called on it, as long as [connect] is not called again:
    no request is logged, the store and the coming events are untouched. *)
Theorem disconnected_object_never_contacts_store {double : Type}
    (dump : json double -> string) (calls : list (call double)) (s : State) :
  connected (self s) = false ->
  forallb is_operation calls = true ->
  connected (self (snd (perform_all dump calls s))) = false /\
  no_request s (snd (perform_all dump calls s)).
Proof.
  revert s. induction calls as [|c rest IH]; intros s Hc Hops.
  - simpl. split; [exact Hc | apply no_request_refl].
  - simpl in Hops. apply andb_true_iff in Hops as [Hop Hrest].
    rewrite perform_all_cons.
    assert (Hc' : connected (self (snd (perform dump c s))) = false)
      by (rewrite (perform_operation_self dump c s Hop); exact Hc).
    destruct (IH (snd (perform dump c s)) Hc' Hrest) as [Hfinal Hquiet].
    split; [exact Hfinal|].
    eapply no_request_trans; [exact (perform_offline dump c s Hc Hop) | exact Hquiet].
Qed.

Lemma disconnected_object_never_contacts_store_witness :
  let calls := [CallStoreStockData "AAPL" sample_quote;
                CallStoreTradingSignal "AAPL" "BUY" "momentum" 87;
                CallGetStockData "AAPL";
                CallPublishMarketUpdate "ticks" sample_quote;
                CallGetAvailableSymbols;
                CallIsConnected] in
  connected (self offline) = false /\
  forallb is_operation calls = true /\
  connected (self (snd (perform_all sample_dump calls offline))) = false /\
  no_request offline (snd (perform_all sample_dump calls offline)).
Proof.
  intros calls.
  split; [reflexivity|]. split; [reflexivity|].
  apply (disconnected_object_never_contacts_store sample_dump calls offline);
    reflexivity.
Defined.

(** ** Operations that only read *)

Lemma getAvailableSymbols_online (s : State) :
  connected (self s) = true ->
  getAvailableSymbols s
  = (match answer (world s) (KEYS "stock:current:*") with
     | Some (ReplyArray elements) => collect_symbols elements []
     | _ => Returns []
     end,
     mkState (self s) (after_request (world s) (KEYS "stock:current:*"))).
Proof.
  intros Hc. run_call getAvailableSymbols Hc.
  destruct (answer (world s) _) as [[]|]; reflexivity.
Qed.

Lemma round_trip_get (w : World) (k : string) : snd (round_trip w (GET k)) = server w.
Proof.
  destruct (round_trip_cases w (GET k)) as [-> | ->]; [|reflexivity].
  simpl. destruct (db (server w) !! k) as [[|]|]; reflexivity.
Qed.

Lemma round_trip_publish (w : World) (ch m : string) :
  snd (round_trip w (PUBLISH ch m)) = server w.
Proof. destruct (round_trip_cases w (PUBLISH ch m)) as [-> | ->]; reflexivity. Qed.

Lemma round_trip_keys (w : World) (p : string) : snd (round_trip w (KEYS p)) = server w.
Proof. destruct (round_trip_cases w (KEYS p)) as [-> | ->]; reflexivity. Qed.

(** X4. [getStockData], [publishMarketUpdate] and [getAvailableSymbols]
    never change what the store holds, whatever happens to their request;
    on a connected client each makes exactly one request, a [GET] of the
    symbol's quote key, a [PUBLISH] on the channel, a [KEYS] of the quote
    keys. *)
Theorem reads_leave_the_store {double : Type} (dump : json double -> string)
    (symbol channel : string) (data : json double) (s : State) :
  server (world (snd (getStockData symbol s))) = server (world s) /\
  server (world (snd (publishMarketUpdate dump channel data s))) = server (world s) /\
  server (world (snd (getAvailableSymbols s))) = server (world s) /\
  (connected (self s) = true ->
   sent (world (snd (getStockData symbol s)))
   = sent (world s) ++ [GET (quote_key symbol)] /\
   sent (world (snd (publishMarketUpdate dump channel data s)))
   = sent (world s) ++ [PUBLISH (c_str channel) (blob dump data)] /\
   sent (world (snd (getAvailableSymbols s)))
   = sent (world s) ++ [KEYS "stock:current:*"]).
Proof.
  destruct (connected (self s)) eqn:Hc.
  - rewrite (getStockData_online symbol s Hc),
      (publishMarketUpdate_online dump channel data s Hc),
      (getAvailableSymbols_online s Hc).
    simpl. repeat apply conj; try reflexivity.
    + apply round_trip_get.
    + apply round_trip_publish.
    + apply round_trip_keys.
    + intros _. repeat apply conj; reflexivity.
  - rewrite (getStockData_offline symbol s Hc),
      (publishMarketUpdate_offline dump channel data s Hc),
      (getAvailableSymbols_offline s Hc).
    simpl. repeat apply conj; try reflexivity. discriminate.
Qed.

(** ** Keys *)

Lemma quote_key_prefix (a : string) : quote_key a = "stock:current:" +:+ c_str a.
Proof. reflexivity. Qed.

Lemma history_key_prefix (a : string) : history_key a = "stock:history:" +:+ c_str a.
Proof. reflexivity. Qed.

Lemma signal_key_prefix (a : string) : signal_key a = "signal:latest:" +:+ c_str a.
Proof. reflexivity. Qed.

Lemma append_inj_r (p a b : string) : p +:+ a = p +:+ b -> a = b.
Proof. induction p as [|c p IH]; simpl; [auto | intros [= H]; auto]. Qed.

(** X5. Two symbols address the same quote, history and latest-signal
    records exactly when they agree up to their first NUL byte (so symbols
    without NUL bytes never share a record), and the four key families are
    disjoint: no quote, history or latest-signal key of any symbol equals
    one of another family or the signal queue's key. *)
Theorem keys_of_symbols (a b : string) :
  (quote_key a = quote_key b <-> c_str a = c_str b) /\
  (history_key a = history_key b <-> c_str a = c_str b) /\
  (signal_key a = signal_key b <-> c_str a = c_str b) /\
  (no_nul a = true -> no_nul b = true -> (quote_key a = quote_key b <-> a = b)) /\
  quote_key a <> history_key b /\
  quote_key a <> signal_key b /\
  history_key a <> signal_key b /\
  quote_key a <> signals_stream /\
  history_key a <> signals_stream /\
  signal_key a <> signals_stream.
Proof.
  repeat apply conj;
    try (unfold quote_key, history_key, signal_key, signals_stream; cbn; discriminate).
  - rewrite !quote_key_prefix. apply append_inj_r.
  - intros H. rewrite !quote_key_prefix, H. reflexivity.
  - rewrite !history_key_prefix. apply append_inj_r.
  - intros H. rewrite !history_key_prefix, H. reflexivity.
  - rewrite !signal_key_prefix. apply append_inj_r.
  - intros H. rewrite !signal_key_prefix, H. reflexivity.
  - intros Ha Hb. split; [|intros ->; reflexivity].
    rewrite !quote_key_prefix. intros H. apply append_inj_r in H.
    rewrite (c_str_no_nul a Ha), (c_str_no_nul b Hb) in H. exact H.
Qed.

(** ** What the writes touch *)

Lemma storeStockData_store_offline {double : Type} (dump : json double -> string)
    (symbol : string) (data : json double) (s : State) :
  connected (self s) = false ->
  server (world (snd (storeStockData dump symbol data s))) = server (world s).
Proof. intros Hc. rewrite (storeStockData_offline dump symbol data s Hc). reflexivity. Qed.

Lemma storeTradingSignal_server {double : Type} (dump : json double -> string)
    (symbol signal reason : string) (confidence : double) (s : State) :
  connected (self s) = true ->
  let now := clock (world s) in
  let w1 := after_request (world s) (signal_set dump symbol signal reason confidence now) in
  server (world (snd (storeTradingSignal dump symbol signal reason confidence s)))
  = if fst (storeTradingSignal dump symbol signal reason confidence s)
    then snd (round_trip w1 (stream_push dump symbol signal reason confidence now))
    else server w1.
Proof.
  intros Hc. rewrite (storeTradingSignal_online dump symbol signal reason confidence s Hc).
  cbv zeta. destruct (answer (world s) _) as [r|]; [|reflexivity].
  destruct (signal_acknowledged r); reflexivity.
Qed.

(** X6. A quote write changes no key of the store other than the symbol's
    quote key and history key, and a signal write none other than the
    symbol's latest-signal key and the signal queue, in every world and
    whatever the call returns: quotes never disturb signals, signals never
    disturb quotes, and no symbol disturbs the records of another. *)
Theorem writes_touch_only_their_keys {double : Type} (dump : json double -> string)
    (symbol signal reason : string) (data : json double) (confidence : double)
    (s : State) (k : string) :
  (k <> quote_key symbol -> k <> history_key symbol ->
   db (server (world (snd (storeStockData dump symbol data s)))) !! k
   = db (server (world s)) !! k) /\
  (k <> signal_key symbol -> k <> signals_stream ->
   db (server (world (snd (storeTradingSignal dump symbol signal reason confidence s)))) !! k
   = db (server (world s)) !! k).
Proof.
  split.
  - intros Hq Hh. destruct (connected (self s)) eqn:Hc.
    + rewrite (storeStockData_server dump symbol data s Hc). cbv zeta.
      assert (Hset : db (server (after_request (world s) (quote_set dump symbol data))) !! k
                     = db (server (world s)) !! k)
        by (apply set_keeps_other_keys; congruence).
      destruct (fst (storeStockData dump symbol data s)); [|exact Hset].
      unfold history_trim. rewrite round_trip_ltrim_other by congruence.
      change (server (after_request (after_request (world s) (quote_set dump symbol data))
                                    (history_push dump symbol data)))
        with (snd (round_trip (after_request (world s) (quote_set dump symbol data))
                              (history_push dump symbol data))).
      unfold history_push. rewrite round_trip_lpush_other by congruence. exact Hset.
    + rewrite (storeStockData_store_offline dump symbol data s Hc). reflexivity.
  - intros Hl Hq. destruct (connected (self s)) eqn:Hc.
    + rewrite (storeTradingSignal_server dump symbol signal reason confidence s Hc). cbv zeta.
      assert (Hset : db (server (after_request (world s)
                           (signal_set dump symbol signal reason confidence (clock (world s)))))
                       !! k
                     = db (server (world s)) !! k)
        by (apply set_keeps_other_keys; congruence).
      destruct (fst (storeTradingSignal dump symbol signal reason confidence s)); [|exact Hset].
      unfold stream_push. rewrite round_trip_lpush_other by congruence. exact Hset.
    + rewrite (storeTradingSignal_offline dump symbol signal reason confidence s Hc).
      reflexivity.
Qed.

(** X7. On a connected client, a signal write whose [SET] is not
    acknowledged (null reply, or a reply that is not of status type) returns
    [false] after that one request: no [LPUSH] is made, the signal queue and
    every key other than the symbol's latest-signal key hold what they held,
    and nothing is printed. *)
Theorem unacknowledged_signal_leaves_queue {double : Type} (dump : json double -> string)
    (symbol signal reason : string) (confidence : double) (s : State) :
  connected (self s) = true ->
  (forall r, answer (world s)
               (signal_set dump symbol signal reason confidence (clock (world s))) = Some r ->
             signal_acknowledged r = false) ->
  fst (storeTradingSignal dump symbol signal reason confidence s) = false /\
  sent (world (snd (storeTradingSignal dump symbol signal reason confidence s)))
  = sent (world s) ++ [signal_set dump symbol signal reason confidence (clock (world s))] /\
  list_at (server (world (snd (storeTradingSignal dump symbol signal reason confidence s))))
          signals_stream
  = list_at (server (world s)) signals_stream /\
  (forall k, k <> signal_key symbol ->
     db (server (world (snd (storeTradingSignal dump symbol signal reason confidence s)))) !! k
     = db (server (world s)) !! k) /\
  console (world (snd (storeTradingSignal dump symbol signal reason confidence s)))
  = console (world s).
Proof.
  intros Hc Hnack.
  rewrite (storeTradingSignal_online dump symbol signal reason confidence s Hc). cbv zeta.
  assert (Hother : forall k, k <> signal_key symbol ->
            db (snd (round_trip (world s)
                       (signal_set dump symbol signal reason confidence (clock (world s)))))
               !! k
            = db (server (world s)) !! k).
  { intros k Hk. apply set_keeps_other_keys. congruence. }
  destruct (answer (world s) _) as [r|].
  - rewrite (Hnack r eq_refl). simpl. repeat apply conj; try reflexivity.
    + apply list_at_same_lookup, Hother.
      intros Heq. exact (signal_key_not_signals_stream symbol (eq_sym Heq)).
    + exact Hother.
  - simpl. repeat apply conj; try reflexivity.
    + apply list_at_same_lookup, Hother.
      intros Heq. exact (signal_key_not_signals_stream symbol (eq_sym Heq)).
    + exact Hother.
Qed.

Lemma unacknowledged_signal_leaves_queue_witness :
  let s := online [mkEvent (Refuse (ReplyError "READONLY You can't write against a read only replica.")) 0] in
  connected (self s) = true /\
  (forall r, answer (world s)
               (signal_set sample_dump "AAPL" "BUY" "momentum" 87 (clock (world s))) = Some r ->
             signal_acknowledged r = false) /\
  fst (storeTradingSignal sample_dump "AAPL" "BUY" "momentum" 87 s) = false /\
  list_at (server (world (snd (storeTradingSignal sample_dump "AAPL" "BUY" "momentum" 87 s))))
          signals_stream
  = list_at (server (world s)) signals_stream.
Proof.
  intros s.
  assert (Hnack : forall r, answer (world s)
                    (signal_set sample_dump "AAPL" "BUY" "momentum" 87 (clock (world s)))
                    = Some r -> signal_acknowledged r = false)
    by (intros r [= <-]; reflexivity).
  destruct (unacknowledged_signal_leaves_queue sample_dump "AAPL" "BUY" "momentum" 87 s
              eq_refl Hnack) as (Hfalse & _ & Hqueue & _).
  repeat apply conj; [reflexivity | exact Hnack | exact Hfalse | exact Hqueue].
Defined.

(** X8. On a connected client, when a quote write returns [true] and the
    store executed its three requests (the history key being free or holding
    a list), the quote key holds the written blob and the same blob is the
    newest entry of the symbol's history: the current quote and the head of
    the history agree. *)
Theorem quote_and_history_agree {double : Type} (dump : json double -> string)
    (symbol : string) (data : json double) (s : State) :
  connected (self s) = true ->
  fst (storeStockData dump symbol data s) = true ->
  executed (fate_at (world s) 0) = true ->
  executed (fate_at (world s) 1) = true ->
  executed (fate_at (world s) 2) = true ->
  list_or_free (server (world s)) (history_key symbol) ->
  db (server (world (snd (storeStockData dump symbol data s)))) !! quote_key symbol
  = Some (VString (blob dump data)) /\
  head (list_at (server (world (snd (storeStockData dump symbol data s))))
                (history_key symbol))
  = Some (blob dump data).
Proof.
  intros Hc Hok H0 H1 H2 Hfree. split.
  - apply storeStockData_quote; assumption.
  - rewrite (storeStockData_history dump symbol data s (history_key symbol) Hc).
    + rewrite Hok, bool_decide_eq_true_2 by reflexivity. reflexivity.
    + intros symbol'. apply quote_key_not_history_key.
    + exact Hfree.
    + rewrite Hok, H1, H2. reflexivity.
Qed.

Lemma quote_and_history_agree_witness :
  let s := snd (storeStockData sample_dump "AAPL" sample_quote (online [])) in
  let newer : json Z := JObject [("price", JInteger 190); ("volume", JInteger 100)] in
  connected (self s) = true /\
  fst (storeStockData sample_dump "AAPL" newer s) = true /\
  executed (fate_at (world s) 0) = true /\
  executed (fate_at (world s) 1) = true /\
  executed (fate_at (world s) 2) = true /\
  list_or_free (server (world s)) (history_key "AAPL") /\
  db (server (world (snd (storeStockData sample_dump "AAPL" newer s)))) !! quote_key "AAPL"
  = Some (VString (blob sample_dump newer)) /\
  head (list_at (server (world (snd (storeStockData sample_dump "AAPL" newer s))))
                (history_key "AAPL"))
  = Some (blob sample_dump newer).
Proof.
  intros s newer.
  assert (Hfree : list_or_free (server (world s)) (history_key "AAPL")).
  { intros v. vm_compute. discriminate. }
  destruct (quote_and_history_agree sample_dump "AAPL" newer s
              eq_refl eq_refl eq_refl eq_refl eq_refl Hfree) as [Hq Hh].
  repeat apply conj; try reflexivity; assumption.
Defined.

(** ** Listing the symbols *)

Lemma find_last_of_none (ch : ascii) (s : string) :
  find_last_of ch s = None -> has_byte ch s = false.
Proof.
  induction s as [|c s IH]; simpl; [reflexivity|].
  destruct (find_last_of ch s); [discriminate|].
  destruct (Ascii.eqb c ch); [discriminate|].
  intros _. apply IH. reflexivity.
Qed.

Lemma has_byte_none (ch : ascii) (s : string) :
  has_byte ch s = false -> find_last_of ch s = None.
Proof.
  induction s as [|c s IH]; simpl; [reflexivity|].
  intros H. apply orb_false_iff in H as [Hc Hs]. rewrite (IH Hs), Hc. reflexivity.
Qed.

Lemma no_byte_after_last (ch : ascii) (s : string) (pos : nat) :
  find_last_of ch s = Some pos -> has_byte ch (substr (S pos) s) = false.
Proof.
  revert pos. induction s as [|c s IH]; intros pos; simpl; [discriminate|].
  destruct (find_last_of ch s) as [i|] eqn:Hlast.
  - intros [= <-]. apply IH. reflexivity.
  - destruct (Ascii.eqb c ch); [|discriminate].
    intros [= <-]. destruct s; [reflexivity|]. apply find_last_of_none, Hlast.
Qed.

Lemma collect_symbols_no_colon (elements : list redisReply) (symbols names : list string) :
  Forall (fun name => has_byte ":" name = false) symbols ->
  collect_symbols elements symbols = Returns names ->
  Forall (fun name => has_byte ":" name = false) names.
Proof.
  revert symbols. induction elements as [|e rest IH]; intros symbols Hacc; simpl.
  - intros [= <-]. exact Hacc.
  - destruct (str e) as [key|]; [|discriminate].
    destruct (find_last_of ":" key) as [pos|] eqn:Hpos.
    + apply IH. apply Forall_app. split; [exact Hacc|].
      constructor; [|constructor]. apply no_byte_after_last, Hpos.
    + apply IH, Hacc.
Qed.

Lemma find_last_of_split (ch : ascii) (key : string) (pos : nat) :
  find_last_of ch key = Some pos ->
  exists before, key = before +:+ String ch (substr (S pos) key).
Proof.
  revert pos. induction key as [|c key IH]; intros pos; simpl; [discriminate|].
  destruct (find_last_of ch key) as [i|] eqn:Hlast.
  - intros [= <-]. destruct (IH i eq_refl) as [before Hkey].
    exists (String c before).
    change (String c key = String c (before +:+ String ch (substr (S i) key))).
    f_equal. exact Hkey.
  - destruct (Ascii.eqb c ch) eqn:Hc; [|discriminate].
    intros [= <-]. apply Ascii.eqb_eq in Hc. subst c.
    exists EmptyString. destruct key; reflexivity.
Qed.

Lemma find_last_of_app (ch : ascii) (before name : string) :
  has_byte ch name = false ->
  find_last_of ch (before +:+ String ch name) = Some (String.length before) /\
  substr (S (String.length before)) (before +:+ String ch name) = name.
Proof.
  intros Hname. induction before as [|c before [IH1 IH2]]; simpl.
  - rewrite (has_byte_none ch name Hname), Ascii.eqb_refl.
    split; [reflexivity | destruct name; reflexivity].
  - rewrite IH1. split; [reflexivity | exact IH2].
Qed.

(** The name listed for a key is what follows its last colon. *)
Lemma listed_name_some (key name : string) :
  listed_name key = Some name <->
  exists before, key = before +:+ ":" +:+ name /\ has_byte ":" name = false.
Proof.
  unfold listed_name. split.
  - destruct (find_last_of ":" key) as [pos|] eqn:Hpos; [|discriminate].
    intros [= <-]. destruct (find_last_of_split ":" key pos Hpos) as [before Hkey].
    exists before. split; [exact Hkey | apply no_byte_after_last, Hpos].
  - intros (before & -> & Hname).
    destruct (find_last_of_app ":" before name Hname) as [Hpos Htail].
    change (before +:+ ":" +:+ name) with (before +:+ String ":" name).
    rewrite Hpos, Htail. reflexivity.
Qed.

Lemma listed_name_none (key : string) :
  listed_name key = None <-> has_byte ":" key = false.
Proof.
  unfold listed_name. split.
  - destruct (find_last_of ":" key) eqn:Hpos; [discriminate|].
    intros _. apply find_last_of_none, Hpos.
  - intros Hkey. rewrite (has_byte_none ":" key Hkey). reflexivity.
Qed.

Lemma collect_symbols_texts (elements : list redisReply) (keys symbols : list string) :
  Forall2 (fun e key => str e = Some key) elements keys ->
  collect_symbols elements symbols = Returns (symbols ++ omap listed_name keys).
Proof.
  intros Htexts. revert symbols.
  induction Htexts as [|e key elements keys He _ IH]; intros symbols; simpl.
  - rewrite app_nil_r. reflexivity.
  - rewrite He. unfold listed_name at 1. destruct (find_last_of ":" key) as [pos|].
    + rewrite IH, <- app_assoc. reflexivity.
    + apply IH.
Qed.

(** X9. What [getAvailableSymbols] returns.  It is the empty sequence when
    the client is disconnected and when the reply to [KEYS] is null or not
    an array.  For an array reply whose elements all carry text it is, in
    the order of the elements, the text after the last colon of each
    element that holds a colon; elements without colon are skipped.  So no
    name it returns, whatever the store answered, holds a colon. *)
Theorem listing_takes_last_segments (s : State) :
  (connected (self s) = false -> fst (getAvailableSymbols s) = Returns []) /\
  (connected (self s) = true ->
   (answer (world s) (KEYS "stock:current:*") = None ->
    fst (getAvailableSymbols s) = Returns []) /\
   (forall r, answer (world s) (KEYS "stock:current:*") = Some r ->
              rtype r <> REDIS_REPLY_ARRAY ->
              fst (getAvailableSymbols s) = Returns []) /\
   (forall elements keys,
      answer (world s) (KEYS "stock:current:*") = Some (ReplyArray elements) ->
      Forall2 (fun e key => str e = Some key) elements keys ->
      fst (getAvailableSymbols s) = Returns (omap listed_name keys))) /\
  (forall key name,
     listed_name key = Some name <->
     exists before, key = before +:+ ":" +:+ name /\ has_byte ":" name = false) /\
  (forall key, listed_name key = None <-> has_byte ":" key = false) /\
  (forall names,
     fst (getAvailableSymbols s) = Returns names ->
     Forall (fun name => has_byte ":" name = false) names).
Proof.
  split; [|split; [|split; [|split]]].
  - intros Hc. rewrite (getAvailableSymbols_offline s Hc). reflexivity.
  - intros Hc. rewrite (getAvailableSymbols_online s Hc). simpl fst.
    split; [|split].
    + intros ->. reflexivity.
    + intros r -> Hr. destruct r; try reflexivity. exfalso. apply Hr. reflexivity.
    + intros elements keys -> Htexts.
      apply (collect_symbols_texts elements keys [] Htexts).
  - exact listed_name_some.
  - exact listed_name_none.
  - intros names. destruct (connected (self s)) eqn:Hc.
    + rewrite (getAvailableSymbols_online s Hc). simpl fst.
      destruct (answer (world s) _) as [[ | elements | | | | ]|];
        try (intros [= <-]; constructor).
      apply collect_symbols_no_colon. constructor.
    + rewrite (getAvailableSymbols_offline s Hc). intros [= <-]. constructor.
Qed.

Lemma listing_takes_last_segments_witness :
  let s := online [mkEvent (Refuse (ReplyArray [ReplyString "stock:current:BRK:B";
                                                 ReplyString "orphan";
                                                 ReplyString "stock:current:AAPL"])) 0] in
  connected (self s) = true /\
  answer (world s) (KEYS "stock:current:*")
  = Some (ReplyArray [ReplyString "stock:current:BRK:B"; ReplyString "orphan";
                      ReplyString "stock:current:AAPL"]) /\
  fst (getAvailableSymbols s)
  = Returns (omap listed_name ["stock:current:BRK:B"; "orphan"; "stock:current:AAPL"]) /\
  omap listed_name ["stock:current:BRK:B"; "orphan"; "stock:current:AAPL"] = ["B"; "AAPL"].
Proof.
  intros s.
  destruct (listing_takes_last_segments s) as (_ & Hon & _).
  destruct (Hon eq_refl) as (_ & _ & Harray).
  repeat apply conj; [reflexivity | reflexivity | | reflexivity].
  apply (Harray [ReplyString "stock:current:BRK:B"; ReplyString "orphan";
                 ReplyString "stock:current:AAPL"]); [reflexivity|].
  repeat constructor.
Defined.

Lemma collect_symbols_strings (keys symbols : list string) :
  collect_symbols (map ReplyString keys) symbols
  = Returns (symbols ++ omap listed_name keys).
Proof.
  revert symbols. induction keys as [|key rest IH]; intros symbols; simpl.
  - rewrite app_nil_r. reflexivity.
  - unfold listed_name at 1. destruct (find_last_of ":" key) as [pos|].
    + rewrite IH, <- app_assoc. reflexivity.
    + apply IH.
Qed.

Lemma glob_match_star (t : string) : glob_match "*" t = true.
Proof.
  induction t as [|c t IH]; [reflexivity|].
  simpl in *. exact IH.
Qed.

Lemma quote_key_matches (symbol : string) :
  glob_match "stock:current:*" (quote_key symbol) = true.
Proof.
  rewrite quote_key_prefix.
  change (glob_match "stock:current:*" ("stock:current:" +:+ c_str symbol))
    with (glob_match "*" (c_str symbol)).
  apply glob_match_star.
Qed.

Lemma listed_name_quote_key (symbol : string) :
  listed_name (quote_key symbol) = Some (listed_as symbol).
Proof.
  rewrite quote_key_prefix. unfold listed_as, listed_name. simpl.
  change ("" +:+ c_str symbol) with (c_str symbol).
  destruct (find_last_of ":" (c_str symbol)); reflexivity.
Qed.

Lemma listed_as_plain (symbol : string) :
  no_nul symbol = true -> has_byte ":" symbol = false -> listed_as symbol = symbol.
Proof.
  intros Hnul Hcolon. unfold listed_as, listed_name.
  rewrite (c_str_no_nul symbol Hnul), (has_byte_none ":" symbol Hcolon). reflexivity.
Qed.

(** The names a delivered [KEYS] brings back: one for each stored key that
    matches the pattern and holds a colon. *)
Lemma getAvailableSymbols_delivered (s : State) :
  connected (self s) = true ->
  fate_at (world s) 0 = Deliver ->
  fst (getAvailableSymbols s)
  = Returns (omap listed_name
               (map c_str
                  (filter (fun k => Is_true (glob_match "stock:current:*" k))
                          (map fst (map_to_list (db (server (world s)))))))).
Proof.
  intros Hc Hd. rewrite (getAvailableSymbols_online s Hc). simpl fst.
  unfold answer, round_trip. rewrite fate_next, Hd. simpl.
  rewrite <- (map_map c_str ReplyString). apply collect_symbols_strings.
Qed.

(** X10. After a quote write on a connected client that returned [true] and
    whose [SET] the store executed, a listing on a connected client, in any
    later state whose quote key holds what the write left there and whose
    [KEYS] the store answers, is defined and holds the symbol's name: the
    text after the last colon of the symbol as it reached the store.  A
    symbol without colon and without NUL byte is listed as itself; a symbol
    with a colon is listed by its last segment only. *)
Theorem stored_symbol_is_listed {double : Type} (dump : json double -> string)
    (symbol : string) (data : json double) (s later : State) :
  connected (self s) = true ->
  fst (storeStockData dump symbol data s) = true ->
  executed (fate_at (world s) 0) = true ->
  connected (self later) = true ->
  db (server (world later)) !! quote_key symbol
  = db (server (world (snd (storeStockData dump symbol data s)))) !! quote_key symbol ->
  fate_at (world later) 0 = Deliver ->
  exists names,
    fst (getAvailableSymbols later) = Returns names /\
    In (listed_as symbol) names /\
    (no_nul symbol = true -> has_byte ":" symbol = false -> In symbol names).
Proof.
  intros Hc Hok Hset Hlater Hkey Hkeys.
  rewrite (storeStockData_quote dump symbol data s Hc Hok Hset) in Hkey.
  eexists. split; [apply (getAvailableSymbols_delivered later Hlater Hkeys)|].
  assert (Hin : In (listed_as symbol)
                   (omap listed_name
                      (map c_str
                         (filter (fun k => Is_true (glob_match "stock:current:*" k))
                                 (map fst (map_to_list (db (server (world later))))))))).
  { apply list_elem_of_In, list_elem_of_omap. exists (quote_key symbol).
    split; [|apply listed_name_quote_key].
    apply list_elem_of_In, in_map_iff. exists (quote_key symbol). split.
    - unfold quote_key. apply c_str_idempotent.
    - apply list_elem_of_In, list_elem_of_filter. split.
      + rewrite quote_key_matches. exact I.
      + apply list_elem_of_In, in_map_iff.
        exists (quote_key symbol, VString (blob dump data)). split; [reflexivity|].
        apply list_elem_of_In, elem_of_map_to_list, Hkey. }
  split; [exact Hin|].
  intros Hnul Hcolon. rewrite <- (listed_as_plain symbol Hnul Hcolon) at 1. exact Hin.
Qed.

Lemma stored_symbol_is_listed_witness :
  let s := online [] in
  let later := snd (storeStockData sample_dump "BRK:B" sample_quote s) in
  connected (self s) = true /\
  fst (storeStockData sample_dump "BRK:B" sample_quote s) = true /\
  executed (fate_at (world s) 0) = true /\
  connected (self later) = true /\
  fate_at (world later) 0 = Deliver /\
  listed_as "BRK:B" = "B" /\
  exists names,
    fst (getAvailableSymbols later) = Returns names /\ In (listed_as "BRK:B") names.
Proof.
  intros s later.
  destruct (stored_symbol_is_listed sample_dump "BRK:B" sample_quote s later
              eq_refl eq_refl eq_refl eq_refl eq_refl eq_refl)
    as (names & Hnames & Hin & _).
  repeat apply conj; try reflexivity.
  exists names. split; assumption.
Defined.

(** ** Reading a quote *)

Lemma c_str_has_no_nul (s : string) : no_nul (c_str s) = true.
Proof.
  induction s as [|c s IH]; simpl; [reflexivity|].
  destruct (Ascii.eqb c Ascii.zero) eqn:Hc; simpl; [reflexivity|].
  rewrite Hc, IH. reflexivity.
Qed.

(** X11. On a connected client whose [GET] the store answers, a read
    returns the empty blob when the symbol's quote key is absent and when it
    holds a list, and the stored text up to its first NUL byte when it holds
    a string; the blob returned never holds a NUL byte. *)
Theorem read_follows_store_content (symbol : string) (s : State) :
  connected (self s) = true ->
  fate_at (world s) 0 = Deliver ->
  (db (server (world s)) !! quote_key symbol = None ->
   fst (getStockData symbol s) = EmptyString) /\
  (forall l, db (server (world s)) !! quote_key symbol = Some (VList l) ->
             fst (getStockData symbol s) = EmptyString) /\
  (forall v, db (server (world s)) !! quote_key symbol = Some (VString v) ->
             fst (getStockData symbol s) = c_str v) /\
  no_nul (fst (getStockData symbol s)) = true.
Proof.
  intros Hc Hd. rewrite (getStockData_online symbol s Hc). simpl fst.
  unfold answer, round_trip. rewrite fate_next, Hd. simpl.
  destruct (db (server (world s)) !! quote_key symbol) as [[v|l]|]; simpl;
    repeat apply conj; try discriminate; try reflexivity.
  - intros v' [= <-]. reflexivity.
  - apply c_str_has_no_nul.
Qed.

Lemma read_follows_store_content_witness :
  let s := online [] in
  connected (self s) = true /\
  fate_at (world s) 0 = Deliver /\
  db (server (world s)) !! quote_key "MSFT" = None /\
  fst (getStockData "MSFT" s) = EmptyString.
Proof.
  intros s.
  destruct (read_follows_store_content "MSFT" s eq_refl eq_refl) as (Hmiss & _).
  repeat apply conj; [reflexivity .. | apply Hmiss; reflexivity].
Defined.

(** ** Requests and console lines of the writes *)

(** X12. On a connected client the result of a write tells which requests
    it made: a quote write that returns [true] made [SET], [LPUSH], [LTRIM]
    in this order and one that returns [false] made the [SET] only; a signal
    write that returns [true] made [SET], [LPUSH] and one that returns
    [false] made the [SET] only. *)
Theorem result_tells_requests {double : Type} (dump : json double -> string)
    (symbol signal reason : string) (data : json double) (confidence : double)
    (s : State) :
  connected (self s) = true ->
  sent (world (snd (storeStockData dump symbol data s)))
  = sent (world s)
    ++ (if fst (storeStockData dump symbol data s)
        then [SET (quote_key symbol) (blob dump data);
              LPUSH (history_key symbol) (blob dump data);
              LTRIM (history_key symbol) 0 999]
        else [SET (quote_key symbol) (blob dump data)]) /\
  sent (world (snd (storeTradingSignal dump symbol signal reason confidence s)))
  = sent (world s)
    ++ (if fst (storeTradingSignal dump symbol signal reason confidence s)
        then [SET (signal_key symbol)
                  (signal_blob dump symbol signal reason confidence (clock (world s)));
              LPUSH signals_stream
                    (signal_blob dump symbol signal reason confidence (clock (world s)))]
        else [SET (signal_key symbol)
                  (signal_blob dump symbol signal reason confidence (clock (world s)))]).
Proof.
  intros Hc. split.
  - rewrite (storeStockData_online dump symbol data s Hc). cbv zeta.
    destruct (answer (world s) _) as [r|]; [|reflexivity].
    destruct (quote_acknowledged r); simpl; [|reflexivity].
    rewrite <- !app_assoc. reflexivity.
  - rewrite (storeTradingSignal_online dump symbol signal reason confidence s Hc). cbv zeta.
    destruct (answer (world s) _) as [r|]; [|reflexivity].
    destruct (signal_acknowledged r); simpl; [|reflexivity].
    rewrite <- !app_assoc. reflexivity.
Qed.

Lemma result_tells_requests_witness :
  let s := online [mkEvent Deliver 0; mkEvent Drop 0; mkEvent Drop 0] in
  connected (self s) = true /\
  sent (world (snd (storeStockData sample_dump "AAPL" sample_quote s)))
  = [SET (quote_key "AAPL") (blob sample_dump sample_quote);
     LPUSH (history_key "AAPL") (blob sample_dump sample_quote);
     LTRIM (history_key "AAPL") 0 999].
Proof.
  intros s. split; [reflexivity|].
  destruct (result_tells_requests sample_dump "AAPL" "BUY" "momentum" sample_quote 87 s
              eq_refl) as [Hq _].
  exact Hq.
Defined.

(** X13. What the operations print.  Reads, publications, listings and
    [isConnected] never print.  A signal write prints one line on [cout]
    when it returns [true] and nothing otherwise.  A quote write prints one
    line on [cout] when it returns [true]; when it returns [false] it prints
    one line on [cerr] if the client is disconnected or the reply is null,
    and nothing if the store answered with a reply that fails the success
    test. *)
Theorem console_lines {double : Type} (dump : json double -> string)
    (symbol signal reason channel : string) (data : json double) (confidence : double)
    (s : State) :
  console (world (snd (getStockData symbol s))) = console (world s) /\
  console (world (snd (publishMarketUpdate dump channel data s))) = console (world s) /\
  console (world (snd (getAvailableSymbols s))) = console (world s) /\
  console (world (snd (isConnected s))) = console (world s) /\
  console (world (snd (storeTradingSignal dump symbol signal reason confidence s)))
  = console (world s)
    ++ (if fst (storeTradingSignal dump symbol signal reason confidence s)
        then [(Cout, "📡 Stored trading signal: " +:+ symbol +:+ " -> " +:+ signal)]
        else []) /\
  console (world (snd (storeStockData dump symbol data s)))
  = console (world s)
    ++ (if fst (storeStockData dump symbol data s)
        then [(Cout, "💾 Stored " +:+ symbol +:+ " data in Redis")]
        else if negb (connected (self s)) then [(Cerr, "❌ Redis not connected")]
        else match answer (world s) (quote_set dump symbol data) with
             | None => [(Cerr, "❌ Redis SET command failed")]
             | Some _ => []
             end).
Proof.
  destruct (connected (self s)) eqn:Hc.
  - rewrite (getStockData_online symbol s Hc),
      (publishMarketUpdate_online dump channel data s Hc),
      (getAvailableSymbols_online s Hc),
      (storeTradingSignal_online dump symbol signal reason confidence s Hc),
      (storeStockData_online dump symbol data s Hc).
    cbv zeta. repeat apply conj; try reflexivity.
    + destruct (answer (world s) (signal_set _ _ _ _ _ _)) as [r|];
        [|simpl; rewrite app_nil_r; reflexivity].
      destruct (signal_acknowledged r); simpl; [reflexivity|].
      rewrite app_nil_r. reflexivity.
    + destruct (answer (world s) (quote_set dump symbol data)) as [r|]; [|reflexivity].
      destruct (quote_acknowledged r); simpl; [reflexivity|].
      rewrite app_nil_r. reflexivity.
  - rewrite (getStockData_offline symbol s Hc),
      (publishMarketUpdate_offline dump channel data s Hc),
      (getAvailableSymbols_offline s Hc),
      (storeTradingSignal_offline dump symbol signal reason confidence s Hc),
      (storeStockData_offline dump symbol data s Hc).
    simpl. rewrite app_nil_r. repeat apply conj; reflexivity.
Qed.

(** ** Lists stay lists *)

Lemma signal_key_not_history_key (a b : string) : signal_key a <> history_key b.
Proof. unfold signal_key, history_key. cbn. discriminate. Qed.

Section Lists_stay_lists.

Context {double : Type} (dump : json double -> string).

Variable k : string.
Hypothesis not_quote_key : forall symbol, quote_key symbol <> k.
Hypothesis not_signal_key : forall symbol, signal_key symbol <> k.

Lemma storeStockData_keeps_list (symbol : string) (data : json double) (s : State) :
  list_or_free (server (world s)) k ->
  list_or_free (server (world (snd (storeStockData dump symbol data s)))) k.
Proof.
  intros Hfree. destruct (connected (self s)) eqn:Hc.
  - apply storeStockData_list_or_free; assumption.
  - rewrite (storeStockData_store_offline dump symbol data s Hc). exact Hfree.
Qed.

Lemma storeTradingSignal_keeps_list (symbol signal reason : string) (confidence : double)
    (s : State) :
  list_or_free (server (world s)) k ->
  list_or_free (server (world (snd (storeTradingSignal dump symbol signal reason
                                      confidence s)))) k.
Proof.
  intros Hfree. destruct (connected (self s)) eqn:Hc.
  - rewrite (storeTradingSignal_server dump symbol signal reason confidence s Hc). cbv zeta.
    assert (H1 : list_or_free
                   (server (after_request (world s)
                      (signal_set dump symbol signal reason confidence (clock (world s))))) k).
    { apply round_trip_list_or_free; [|exact Hfree].
      intros k' v [= <- _]. apply not_signal_key. }
    destruct (fst (storeTradingSignal dump symbol signal reason confidence s)); [|exact H1].
    apply round_trip_list_or_free; [discriminate | exact H1].
  - rewrite (storeTradingSignal_offline dump symbol signal reason confidence s Hc).
    exact Hfree.
Qed.

Lemma perform_keeps_list (c : call double) (s : State) :
  list_or_free (server (world s)) k ->
  list_or_free (server (world (snd (perform dump c s)))) k.
Proof.
  intros Hfree. destruct c; unfold perform; rewrite bind_run; simpl snd.
  - rewrite connect_run. destruct (network (world s)) as [|[|e|] rest]; exact Hfree.
  - exact Hfree.
  - apply storeStockData_keeps_list, Hfree.
  - apply storeTradingSignal_keeps_list, Hfree.
  - destruct (connected (self s)) eqn:Hc.
    + rewrite (getStockData_online symbol s Hc). simpl. rewrite round_trip_get. exact Hfree.
    + rewrite (getStockData_offline symbol s Hc). exact Hfree.
  - destruct (connected (self s)) eqn:Hc.
    + rewrite (publishMarketUpdate_online dump channel data s Hc). simpl.
      unfold publish_request. rewrite round_trip_publish. exact Hfree.
    + rewrite (publishMarketUpdate_offline dump channel data s Hc). exact Hfree.
  - destruct (connected (self s)) eqn:Hc.
    + rewrite (getAvailableSymbols_online s Hc). simpl. rewrite round_trip_keys. exact Hfree.
    + rewrite (getAvailableSymbols_offline s Hc). exact Hfree.
Qed.

Lemma perform_all_keeps_list (calls : list (call double)) (s : State) :
  list_or_free (server (world s)) k ->
  list_or_free (server (world (snd (perform_all dump calls s)))) k.
Proof.
  revert s. induction calls as [|c rest IH]; intros s Hfree; [exact Hfree|].
  rewrite perform_all_cons. apply IH, perform_keeps_list, Hfree.
Qed.

End Lists_stay_lists.

(** X14. No sequence of calls on an object, whatever the store and the
    network do, turns a history key or the signal queue's key into a scalar:
    a key of these that was free or held a list is free or holds a list
    afterwards, so the client never makes its own [LPUSH] or [LTRIM] fail
    with a wrong-type error. *)
Theorem lists_stay_lists {double : Type} (dump : json double -> string)
    (calls : list (call double)) (symbol : string) (s : State) :
  (list_or_free (server (world s)) (history_key symbol) ->
   list_or_free (server (world (snd (perform_all dump calls s)))) (history_key symbol)) /\
  (list_or_free (server (world s)) signals_stream ->
   list_or_free (server (world (snd (perform_all dump calls s)))) signals_stream).
Proof.
  split.
  - apply perform_all_keeps_list.
    + intros symbol'. apply quote_key_not_history_key.
    + intros symbol'. apply signal_key_not_history_key.
  - apply perform_all_keeps_list.
    + intros symbol'. apply quote_key_not_signals_stream.
    + intros symbol'. apply signal_key_not_signals_stream.
Qed.

(** ** The signal queue has no cap *)

Lemma calm_fate_at (w : World) (i : nat) : calm w -> fate_at w i = Deliver.
Proof.
  unfold calm, fate_at. intros Hcalm.
  destruct (nth_in_or_default i (schedule w) (mkEvent Deliver 0)) as [Hin | ->];
    [|reflexivity].
  rewrite Forall_forall in Hcalm. apply Hcalm, list_elem_of_In, Hin.
Qed.

Lemma calm_after_request (w : World) (c : command) : calm w -> calm (after_request w c).
Proof.
  unfold calm, after_request. simpl. intros Hcalm.
  destruct (schedule w); [constructor|]. inversion Hcalm; assumption.
Qed.

Lemma calm_say (out : stream) (line : string) (w : World) : calm w -> calm (say out line w).
Proof. auto. Qed.

Lemma calm_answer (w : World) (c : command) :
  calm w -> answer w c = Some (fst (exec (server w) c)).
Proof.
  intros Hcalm. unfold answer, round_trip.
  rewrite fate_next, (calm_fate_at w 0 Hcalm). destruct (exec (server w) c); reflexivity.
Qed.

Lemma calm_round_trip (w : World) (c : command) :
  calm w -> snd (round_trip w c) = snd (exec (server w) c).
Proof.
  intros Hcalm. apply round_trip_executed.
  rewrite fate_next, (calm_fate_at w 0 Hcalm). reflexivity.
Qed.

Section Calm_runs.

Context {double : Type} (dump : json double -> string).

Lemma storeStockData_calm (symbol : string) (data : json double) (s : State) :
  connected (self s) = true ->
  calm (world s) ->
  calm (world (snd (storeStockData dump symbol data s))) /\
  db (server (world (snd (storeStockData dump symbol data s)))) !! signals_stream
  = db (server (world s)) !! signals_stream.
Proof.
  intros Hc Hcalm. split.
  - rewrite (storeStockData_online dump symbol data s Hc). cbv zeta.
    destruct (answer (world s) _) as [r|]; [destruct (quote_acknowledged r)|]; simpl;
      repeat first [apply calm_say | apply calm_after_request]; exact Hcalm.
  - rewrite (storeStockData_server dump symbol data s Hc). cbv zeta.
    assert (Hset : db (server (after_request (world s) (quote_set dump symbol data)))
                     !! signals_stream
                   = db (server (world s)) !! signals_stream)
      by (apply set_keeps_other_keys, quote_key_not_signals_stream).
    destruct (fst (storeStockData dump symbol data s)); [|exact Hset].
    unfold history_trim. rewrite round_trip_ltrim_other by (cbn; discriminate).
    change (server (after_request (after_request (world s) (quote_set dump symbol data))
                                  (history_push dump symbol data)))
      with (snd (round_trip (after_request (world s) (quote_set dump symbol data))
                            (history_push dump symbol data))).
    unfold history_push. rewrite round_trip_lpush_other by (cbn; discriminate).
    exact Hset.
Qed.

Lemma storeTradingSignal_calm (symbol signal reason : string) (confidence : double)
    (s : State) :
  connected (self s) = true ->
  calm (world s) ->
  list_or_free (server (world s)) signals_stream ->
  fst (storeTradingSignal dump symbol signal reason confidence s) = true /\
  calm (world (snd (storeTradingSignal dump symbol signal reason confidence s))) /\
  list_at (server (world (snd (storeTradingSignal dump symbol signal reason confidence s))))
          signals_stream
  = signal_blob dump symbol signal reason confidence (clock (world s))
    :: list_at (server (world s)) signals_stream.
Proof.
  intros Hc Hcalm Hfree.
  rewrite (storeTradingSignal_online dump symbol signal reason confidence s Hc). cbv zeta.
  rewrite (calm_answer _ _ Hcalm). simpl fst.
  change (signal_acknowledged (ReplyStatus "OK")) with true. cbv iota. simpl fst. simpl snd.
  set (set_request := signal_set dump symbol signal reason confidence (clock (world s))).
  set (w1 := after_request (world s) set_request).
  assert (Hcalm1 : calm w1) by (apply calm_after_request, Hcalm).
  assert (Hstream : db (server w1) !! signals_stream = db (server (world s)) !! signals_stream)
    by (apply set_keeps_other_keys, signal_key_not_signals_stream).
  repeat apply conj.
  - reflexivity.
  - apply calm_say, calm_after_request, Hcalm1.
  - simpl server.
    change (server (after_request w1 (stream_push dump symbol signal reason confidence
                                        (clock (world s)))))
      with (snd (round_trip w1 (stream_push dump symbol signal reason confidence
                                  (clock (world s))))).
    rewrite (calm_round_trip _ _ Hcalm1). unfold stream_push. rewrite exec_lpush_same.
    + f_equal. apply list_at_same_lookup, Hstream.
    + eapply list_or_free_same_lookup; [exact Hstream | exact Hfree].
Qed.

Lemma perform_calm (c : call double) (s : State) :
  is_operation c = true ->
  connected (self s) = true ->
  calm (world s) ->
  list_or_free (server (world s)) signals_stream ->
  calm (world (snd (perform dump c s))) /\
  length (list_at (server (world (snd (perform dump c s)))) signals_stream)
  = (signal_writes [c] + length (list_at (server (world s)) signals_stream))%nat.
Proof.
  intros Hop Hc Hcalm Hfree.
  destruct c; try discriminate; unfold perform; rewrite bind_run; simpl snd.
  - split; [exact Hcalm | reflexivity].
  - destruct (storeStockData_calm symbol data s Hc Hcalm) as [H1 H2].
    split; [exact H1|]. simpl. f_equal. apply list_at_same_lookup, H2.
  - destruct (storeTradingSignal_calm symbol signal reason confidence s Hc Hcalm Hfree)
      as (_ & H1 & H2).
    split; [exact H1|]. rewrite H2. reflexivity.
  - rewrite (getStockData_online symbol s Hc). simpl snd. simpl world.
    split; [apply calm_after_request, Hcalm|]. simpl server. rewrite round_trip_get.
    reflexivity.
  - rewrite (publishMarketUpdate_online dump channel data s Hc). simpl snd. simpl world.
    split; [apply calm_after_request, Hcalm|]. simpl server. unfold publish_request.
    rewrite round_trip_publish. reflexivity.
  - rewrite (getAvailableSymbols_online s Hc). simpl snd. simpl world.
    split; [apply calm_after_request, Hcalm|]. simpl server. rewrite round_trip_keys.
    reflexivity.
Qed.

End Calm_runs.

(** X15. The signal queue is never trimmed.  On a connected client in a
    world where the store executes and answers every request, with the
    queue's key free or holding a list, any sequence of operations (all but
    [connect]) leaves the queue longer by exactly the number of signal
    writes among them, with no upper bound, while quote writes, reads,
    publications and listings leave its length alone. *)
Theorem signal_queue_grows_without_cap {double : Type} (dump : json double -> string)
    (calls : list (call double)) (s : State) :
  forallb is_operation calls = true ->
  connected (self s) = true ->
  calm (world s) ->
  list_or_free (server (world s)) signals_stream ->
  length (list_at (server (world (snd (perform_all dump calls s)))) signals_stream)
  = (signal_writes calls + length (list_at (server (world s)) signals_stream))%nat.
Proof.
  revert s. induction calls as [|c rest IH]; intros s Hops Hc Hcalm Hfree; [reflexivity|].
  simpl in Hops. apply andb_true_iff in Hops as [Hop Hrest].
  rewrite perform_all_cons.
  destruct (perform_calm dump c s Hop Hc Hcalm Hfree) as [Hcalm' Hlen].
  rewrite IH; try assumption.
  - rewrite Hlen. destruct c; simpl; lia.
  - rewrite (perform_operation_self dump c s Hop). exact Hc.
  - apply perform_keeps_list; try assumption.
    + intros symbol'. apply quote_key_not_signals_stream.
    + intros symbol'. apply signal_key_not_signals_stream.
Qed.

Lemma signal_queue_grows_without_cap_witness :
  let calls := repeat (CallStoreTradingSignal "AAPL" "BUY" "momentum" 87) 1200
               ++ [CallStoreStockData "AAPL" sample_quote; CallGetStockData "AAPL"] in
  let s := online [] in
  forallb is_operation calls = true /\
  connected (self s) = true /\
  calm (world s) /\
  list_or_free (server (world s)) signals_stream /\
  length (list_at (server (world (snd (perform_all sample_dump calls s)))) signals_stream)
  = 1200%nat.
Proof.
  intros calls s.
  assert (Hops : forallb is_operation calls = true) by (vm_compute; reflexivity).
  assert (Hcalm : calm (world s)) by constructor.
  assert (Hfree : list_or_free (server (world s)) signals_stream)
    by (intros v; discriminate).
  pose proof (signal_queue_grows_without_cap sample_dump calls s Hops eq_refl Hcalm Hfree)
    as Hlen.
  repeat apply conj;
    [exact Hops | reflexivity | exact Hcalm | exact Hfree
    | rewrite Hlen; vm_compute; reflexivity].
Defined.
